(** * Mercure hub: a shallow embedding of the fan-out core

    The development follows the TypeScript sources of the hub:
    - [Updates]        updates.ts: [Update]
    - [UriTemplate]    uri_template.ts: [convertToUrlPattern]
    - [Topic]          topic.ts: [createTopicSelector], [TopicSelector]
    - [Subscribers]    subscribers.ts and subscriptions.ts: [Subscriber],
                       [EventStream], [Subscription]
    - [Memory]         transports/memory.ts: [MemoryTransport], [RingBuffer]
    - [Authorization]  server/authorization.ts and jws.ts: [authorize]
    - [Handler]        server/router.ts, server/_errors.ts and
                       server/handler.ts: [Router], [createHandler]
    Modules are named as the sources import them.

    JavaScript strings are modelled as Rocq strings holding their UTF-8
    bytes, so that [TextEncoder.encode] is the conversion to a byte list;
    the value of a header is a byte string, one character for each byte.
    Promises are flattened: an [async] function is the function of its
    settled result, a rejected promise is a thrown exception. *)

From Stdlib Require Import String Ascii List ZArith Lia Bool.
From stdpp Require Import base option list strings gmap pretty.

Open Scope string_scope.
Open Scope list_scope.

(** ** JavaScript values and exceptions *)

Module JS.

(** The double-quote character, for the messages and header values that
    contain one. *)
Definition dquote : string := String (ascii_of_nat 34) "".

(** The line feed, written [\n] in the sources. *)
Definition newline : string := String (ascii_of_nat 10) "".

(** Truthiness of a string: every string but the empty one. *)
Definition truthy (s : string) : bool := negb (String.eqb s "").

(** [s.includes(needle)]. *)
Fixpoint includes (needle s : string) : bool :=
  String.prefix needle s ||
  match s with
  | "" => false
  | String _ rest => includes needle rest
  end.

(** [s.startsWith(p)] and [s.endsWith(p)]. *)
Definition startsWith (p s : string) : bool := String.prefix p s.
Definition endsWith (p s : string) : bool :=
  String.prefix (String.rev p) (String.rev s).

(** [s.replace(/\/+$/, "")]: the string without its trailing slashes. *)
Fixpoint dropSlashes (s : string) : string :=
  match s with
  | String "/" rest => dropSlashes rest
  | _ => s
  end.
Definition stripTrailingSlashes (s : string) : string :=
  String.rev (dropSlashes (String.rev s)).

(** [parts.join(sep)]. *)
Definition join (sep : string) (parts : list string) : string :=
  String.concat sep parts.

(** [s.toLowerCase()] on the ASCII range, which is all that header names
    and request methods use. *)
Definition lowerAscii (c : ascii) : ascii :=
  let n := nat_of_ascii c in
  if (65 <=? n)%nat && (n <=? 90)%nat then ascii_of_nat (n + 32) else c.
Fixpoint toLowerCase (s : string) : string :=
  match s with
  | "" => ""
  | String c rest => String (lowerAscii c) (toLowerCase rest)
  end.

(** [s.split(" ", 2)]: the text before the first space, and the text
    between the first and the second space when there is a first one. *)
Fixpoint untilSpace (s : string) : string * option string :=
  match s with
  | "" => ("", None)
  | String " " rest => ("", Some rest)
  | String c rest =>
      let '(head, tail) := untilSpace rest in (String c head, tail)
  end.
Definition splitSpace2 (s : string) : string * option string :=
  let '(head, tail) := untilSpace s in
  (head, (fun t => fst (untilSpace t)) <$> tail).

(** What a [throw] carries.  [HttpError] and [ValidationError] are the
    classes of server/_errors.ts; [Error] and [TypeError] are the
    built-in ones.  [cause] is the fourth argument of the constructor of
    [HttpError], and the [cause] option of [new Error(message, { cause })];
    a validation error is given by the issues and the field errors of the
    [ZodError] that is its cause. *)
#[warnings="-register-all"]
Inductive Exception :=
| HttpError (status : nat) (message : string)
            (headers : list (string * string))
            (cause : option Exception)
| ValidationError (issues : list string)
                  (fieldErrors : list (string * list string))
| Error (message : string) (cause : option Exception)
| TypeError (message : string).

Definition message (e : Exception) : string :=
  match e with
  | HttpError _ m _ _ => m
  | ValidationError _ _ => "Bad Request: Invalid payload"
  | Error m _ => m
  | TypeError m => m
  end.

(** The outcome of a call that may throw. *)
Definition result (A : Type) : Type := Exception + A.
Definition ok {A} (a : A) : result A := inr a.
Definition throw {A} (e : Exception) : result A := inl e.
Definition bind {A B} (r : result A) (k : A -> result B) : result B :=
  match r with
  | inl e => inl e
  | inr a => k a
  end.

(** A [URL] object, as far as the hub reads it. *)
Record URL := { href : string; origin : string }.

(** *** Plain objects

    A record of strings ([Record<string, string>], an object literal) is
    the finite map of its own properties.  Reading [object[key]], and
    [key in object], also find what the object inherits from
    [Object.prototype]: the names below, each of them a function.  The
    runtime of the hub deletes the accessor [__proto__] from
    [Object.prototype], so that name is not among them and is a key like
    any other key. *)
Definition objectPrototype : list string :=
  ["constructor"; "__defineGetter__"; "__defineSetter__"; "hasOwnProperty";
   "__lookupGetter__"; "__lookupSetter__"; "isPrototypeOf";
   "propertyIsEnumerable"; "toString"; "valueOf"; "toLocaleString"].

Definition inherited (key : string) : bool :=
  existsb (String.eqb key) objectPrototype.

(** What [object[key]] gives: an own property, a string, or the
    function that the object inherits under that name. *)
Inductive Property :=
| Own (value : string)
| FromPrototype (name : string).

Definition property (object : gmap string string) (key : string)
  : option Property :=
  match object !! key with
  | Some value => Some (Own value)
  | None => if inherited key then Some (FromPrototype key) else None
  end.

(** Truthiness of what was read: a function is truthy. *)
Definition truthyProperty (p : option Property) : bool :=
  match p with
  | Some (Own value) => truthy value
  | Some (FromPrototype _) => true
  | None => false
  end.

End JS.

Notation "'let?' x ':=' r 'in' k" := (JS.bind r (fun x => k))
  (at level 10, x name, r at level 100, k at level 200).

(** ** updates.ts *)

Module Updates.

Record Update := {
  id : string;
  canonicalTopic : string;
  alternateTopics : list string;
  data : option string;
  private : option bool;
  retry : option Z;
  type : option string;
}.

End Updates.

(** ** uri_template.ts *)

Module UriTemplate.
Import JS.

(** The expressions that the parser of the [deno_uri_template] package
    returns, with the fields that the converter reads. *)
Record Term := { name : string; truncate : nat; explode : bool }.

Record VariableExpression := {
  terms : list Term;
  separator : string;
  first : string;
  allowReserved : bool;
  ifEmpty : string;
  named : bool;
}.

(** [{ type: "Literal", value }] and [{ type: "Variable", ... }]. *)
Inductive Expression :=
| Literal (value : string)
| VariableExpr (expression : VariableExpression).

Definition buildTerm (term : Term) (expression : VariableExpression)
  : string :=
  let value := ":" +:+ name term in
  let value := if named expression then name term +:+ value else value in
  let value :=
    if (0 <? truncate term)%nat || allowReserved expression then
      let pattern := if allowReserved expression then "." else ".[^/]" in
      let quantifier :=
        if (0 <? truncate term)%nat
        then "{" +:+ pretty (truncate term) +:+ "}"
        else "+" in
      value +:+ "(" +:+ pattern +:+ quantifier +:+ ")"
    else value in
  value +:+ (if explode term then "*" else "").

Definition convertExpression (result : string) (expression : Expression)
  : string :=
  match expression with
  | Literal value => result +:+ value
  | VariableExpr e =>
      let terms := map (fun term => buildTerm term e) (terms e) in
      let op := first e in
      let sep := separator e in
      if String.eqb op "" then result +:+ join sep terms
      else if String.eqb op "?" || String.eqb op "#" then
        if includes op result then result
        else result +:+ op +:+ join sep terms
      else if String.eqb op "." then
        if endsWith "/" result then
          (* [terms.shift()] runs before [terms.length] is read *)
          match terms with
          | [] => result +:+ "{" +:+ op +:+ "" +:+ "}" +:+ ""
          | t :: rest =>
              result +:+ "{" +:+ op +:+ t +:+ "}" +:+
              (if (0 <? length rest)%nat
               then sep +:+ join sep rest else "")
          end
        else result +:+ op +:+ join sep terms
      else if String.eqb op "/" then
        stripTrailingSlashes result +:+ op +:+ join sep terms
      else if String.eqb op ";" || String.eqb op "&" then
        result +:+ op +:+ join sep terms
      else result
  end.

Section Convert.

(** The runtime's [URLPattern] class and the package's [parse] are not
    code of the repository: the converter is relative to them. *)
Context {URLPattern : Type}.
Variable URLPattern_new : string -> option string -> result URLPattern.
Variable parse : string -> result (list Expression).

(** The conversion cache, [new LRU<URLPattern>(10_000)], is an object of
    the [lru] package: what it holds, in which order, and what it evicts
    when it is full are the package's.  The converter reads it with
    [has(template)] followed by [get(template)!], taken together as
    [LRU_read]: nothing when [has] is false ([has] is a query and leaves
    the cache as it is), and otherwise the pattern that [get] returns and
    the cache as the read leaves it (a read may reorder the entries).  It
    writes it with [set(template, pattern)], which may evict another
    entry. *)
Context {Cache : Type}.
Variable LRU_read : Cache -> string -> option (URLPattern * Cache).
Variable LRU_set : Cache -> string -> URLPattern -> Cache.

Definition convertToUrlPattern
    (conversionCache : Cache) (template : string) (baseURL : option URL)
  : result URLPattern * Cache :=
  match LRU_read conversionCache template with
  | Some (pattern, afterRead) => (ok pattern, afterRead)
  | None =>
      let input :=
        if includes "{" template
        then (let? expressions := parse template in
              ok (fold_left convertExpression expressions ""))
        else ok template in
      match input with
      | inl e => (throw e, conversionCache)
      | inr input =>
          match URLPattern_new input (origin <$> baseURL) with
          | inl cause =>
              (throw (Error ("Failed to convert " +:+ dquote +:+ input +:+
                             dquote +:+ " to URLPattern: " +:+
                             message cause) (Some cause)),
               conversionCache)
          | inr pattern =>
              (ok pattern, LRU_set conversionCache template pattern)
          end
      end
  end.

End Convert.

End UriTemplate.

(** ** topic.ts *)

Module Topic.
Import JS.

Section Selectors.

Context {URLPattern : Type}.

(** [type Selector = string | URLPattern | typeof Wildcard]. *)
Inductive Selector :=
| Wildcard
| Str (topic : string)
| Pattern (pattern : URLPattern).

Record TopicSelector := {
  selector : Selector;
  baseURL : option URL;
}.

(** The [type] getter. *)
Definition type (s : TopicSelector) : string :=
  match selector s with
  | Wildcard => "wildcard"
  | Str _ => "literal"
  | Pattern _ => "template"
  end.

Section Create.

Variable URLPattern_new : string -> option string -> result URLPattern.
Variable parse : string -> result (list UriTemplate.Expression).

(** The conversion cache of uri_template.ts and its two operations. *)
Context {Cache : Type}.
Variable LRU_read : Cache -> string -> option (URLPattern * Cache).
Variable LRU_set : Cache -> string -> URLPattern -> Cache.

Definition createTopicSelector
    (conversionCache : Cache) (topic : string) (baseURL : option URL)
  : result TopicSelector * Cache :=
  if String.eqb topic "*" then
    (ok {| selector := Wildcard; baseURL := baseURL |}, conversionCache)
  else if includes "{" topic then
    match UriTemplate.convertToUrlPattern URLPattern_new parse
            LRU_read LRU_set conversionCache topic baseURL with
    | (inl e, cache) => (throw e, cache)
    | (inr pattern, cache) =>
        (ok {| selector := Pattern pattern; baseURL := baseURL |}, cache)
    end
  else
    (ok {| selector := Str topic; baseURL := baseURL |}, conversionCache).

End Create.

Section Test.

(** [pattern.test(input, baseURL)] of the runtime's [URLPattern]. *)
Variable URLPattern_test : URLPattern -> string -> option string -> bool.

(** [test(...topics)]: [topics.some(...)]. *)
Definition test (s : TopicSelector) (topics : list string) : bool :=
  existsb
    (fun topic =>
       match selector s with
       | Wildcard => true
       | Str literal => String.eqb literal topic
       | Pattern pattern =>
           URLPattern_test pattern topic (href <$> baseURL s)
       end)
    topics.

End Test.

End Selectors.

Arguments Selector : clear implicits.
Arguments TopicSelector : clear implicits.

End Topic.

(** ** subscribers.ts and subscriptions.ts *)

Module Subscribers.
Import JS Updates.

(** The log of [@std/log]: the messages written so far. *)
Definition Log : Type := list string.

(** The runtime's [WritableStreamDefaultWriter<Uint8Array>]: the chunks
    the sink has taken, and whether the stream still takes any.  A write
    or a close on a stream that is closed or errored rejects. *)
Inductive WriterState := Writable | Closed | Errored.

Record WritableStreamDefaultWriter := {
  state : WriterState;
  chunks : list (list Byte.byte);
}.

Definition writer_write (w : WritableStreamDefaultWriter)
    (chunk : list Byte.byte) : result WritableStreamDefaultWriter :=
  match state w with
  | Writable => ok {| state := Writable; chunks := (chunks w ++ [chunk]) |}
  | Closed => throw (TypeError "The stream is closing or is closed.")
  | Errored => throw (TypeError "The stream is errored.")
  end.

Definition writer_close (w : WritableStreamDefaultWriter)
  : result WritableStreamDefaultWriter :=
  match state w with
  | Writable => ok {| state := Closed; chunks := chunks w |}
  | Closed => throw (TypeError "The stream is closing or is closed.")
  | Errored => throw (TypeError "The stream is errored.")
  end.

(** [TextEncoder.encode]. *)
Definition encode (input : string) : list Byte.byte :=
  list_byte_of_string input.

(** *** class EventStream *)
Module EventStream.

Record t := { stream : WritableStreamDefaultWriter }.

Definition close (es : t) : result t :=
  let? w := writer_close (stream es) in ok {| stream := w |}.

(** [write] catches whatever the writer throws, logs it, and returns
    the stream: the promise it returns never rejects. *)
Definition write (es : t) (input : string) (log : Log) : t * Log :=
  match writer_write (stream es) (encode input) with
  | inr w => ({| stream := w |}, log)
  | inl _ => (es, (log ++ ["Error writing to stream"]))
  end.

End EventStream.

Section Subscriber.

Context {URLPattern : Type}.
Variable URLPattern_test : URLPattern -> string -> option string -> bool.

(** [JSON.stringify] on an update.  The text depends on the order in
    which the publisher created the properties of the object. *)
Variable JSON_stringify : Update -> string.

(** *** class Subscription (subscriptions.ts)

    The back-reference to the subscriber is the list that holds the
    subscription. *)
Record Subscription := {
  subscription_id : string;
  selector : Topic.TopicSelector URLPattern;
}.

Definition Subscription_match (s : Subscription) (topics : list string)
  : bool :=
  Topic.test URLPattern_test (selector s) topics.

(** The events a subscriber dispatches on its own event target. *)
Inductive SubscriberEvent :=
| MessageEvent (data : Update)
| HeartbeatEvent
| CloseEvent.

(** *** class Subscriber *)
Record Subscriber := {
  id : string;
  subscriptions : list Subscription;
  authorizedTopics : list (Topic.TopicSelector URLPattern);
  payload : option string;
  active : bool;
  stream : EventStream.t;
  heartbeatTimer : option nat;
  lastEventId : option string;
  dispatched : list SubscriberEvent;
}.

Definition canAccess (this : Subscriber) (update : Update)
    (anonymousAccessEnabled : bool) : bool :=
  let topics := canonicalTopic update :: alternateTopics update in
  let confidential :=
    match private update with Some b => b | None => false end in
  if negb anonymousAccessEnabled &&
     (length (authorizedTopics this) =? 0)%nat
  then false
  else
    (fix loop (subscriptions : list Subscription) : bool :=
       match subscriptions with
       | [] => false
       | subscription :: rest =>
           if negb (Subscription_match subscription topics) then loop rest
           else if negb confidential ||
                   existsb (fun selector =>
                              Topic.test URLPattern_test selector topics)
                           (authorizedTopics this)
           then true
           else loop rest
       end) (subscriptions this).

(** The assignments to the private fields. *)
Definition with_heartbeatTimer (this : Subscriber) (timer : option nat)
  : Subscriber :=
  {| id := id this; subscriptions := subscriptions this;
     authorizedTopics := authorizedTopics this; payload := payload this;
     active := active this; stream := stream this;
     heartbeatTimer := timer;
     lastEventId := lastEventId this; dispatched := dispatched this |}.

Definition with_active (this : Subscriber) (active : bool) : Subscriber :=
  {| id := id this; subscriptions := subscriptions this;
     authorizedTopics := authorizedTopics this; payload := payload this;
     active := active; stream := stream this;
     heartbeatTimer := heartbeatTimer this;
     lastEventId := lastEventId this; dispatched := dispatched this |}.

Definition with_lastEventId (this : Subscriber) (lastEventId : option string)
  : Subscriber :=
  {| id := id this; subscriptions := subscriptions this;
     authorizedTopics := authorizedTopics this; payload := payload this;
     active := active this; stream := stream this;
     heartbeatTimer := heartbeatTimer this;
     lastEventId := lastEventId; dispatched := dispatched this |}.

Definition with_stream (this : Subscriber) (stream : EventStream.t)
  : Subscriber :=
  {| id := id this; subscriptions := subscriptions this;
     authorizedTopics := authorizedTopics this; payload := payload this;
     active := active this; stream := stream;
     heartbeatTimer := heartbeatTimer this;
     lastEventId := lastEventId this; dispatched := dispatched this |}.

Definition with_subscriptions (this : Subscriber)
    (subscriptions : list Subscription) : Subscriber :=
  {| id := id this; subscriptions := subscriptions;
     authorizedTopics := authorizedTopics this; payload := payload this;
     active := active this; stream := stream this;
     heartbeatTimer := heartbeatTimer this;
     lastEventId := lastEventId this; dispatched := dispatched this |}.

(** [this.#target.dispatchEvent(event)]. *)
Definition target_dispatchEvent (this : Subscriber) (event : SubscriberEvent)
  : Subscriber :=
  {| id := id this; subscriptions := subscriptions this;
     authorizedTopics := authorizedTopics this; payload := payload this;
     active := active this; stream := stream this;
     heartbeatTimer := heartbeatTimer this;
     lastEventId := lastEventId this;
     dispatched := dispatched this ++ [event] |}.

Definition disableHeartbeats (this : Subscriber) : Subscriber :=
  with_heartbeatTimer this None.

(** [close()].  The [finally] block dispatches the "close" event, which
    runs the listener that every subscription registered in its
    constructor: it deletes the subscription from [subscriptions].  The
    outcome of closing the stream is the outcome of [close]. *)
Definition close (this : Subscriber) : result unit * Subscriber :=
  let this := disableHeartbeats this in
  let this := with_active this false in
  let closed := EventStream.close (stream this) in
  let this :=
    match closed with
    | inr stream => with_stream this stream
    | inl _ => this
    end in
  let this := target_dispatchEvent this CloseEvent in
  let this := with_subscriptions this [] in
  (let? _ := closed in ok tt, this).

(** [dispatch(update)].  The three statements of the [try] block, in
    order.  None of them throws: [EventStream.write] has caught and logged
    the writer's error already, and the promise it returns never rejects.
    So the [catch] block of [dispatch], which only logs, is never entered,
    and the "message" event is dispatched after a failed write too. *)
Definition dispatch (this : Subscriber) (update : Update) (log : Log)
  : Subscriber * Log :=
  let this := with_lastEventId this (Some (Updates.id update)) in
  let '(stream, log) :=
    EventStream.write (stream this)
      ("data: " +:+ JSON_stringify update +:+ newline +:+ newline) log in
  let this := with_stream this stream in
  let this := target_dispatchEvent this (MessageEvent update) in
  (this, log).

End Subscriber.

Arguments Subscription : clear implicits.
Arguments Subscriber : clear implicits.

End Subscribers.

(** ** transports/memory.ts and transports/mod.ts *)

Module Memory.
Import JS Updates.

(** [export const earliestEventId = "earliest"] (hub.ts). *)
Definition earliestEventId : string := "earliest".

(** A capacity: a natural number or [Infinity], the values that a limit is
    meant to take. *)
Inductive Limit := Infinity | Finite (n : nat).

Definition Limit_eqb (a b : Limit) : bool :=
  match a, b with
  | Infinity, Infinity => true
  | Finite n, Finite m => (n =? m)%nat
  | _, _ => false
  end.

(** [limit] read as a condition: [0] is falsy. *)
Definition Limit_truthy (l : Limit) : bool :=
  match l with Finite 0 => false | _ => true end.

(** *** class RingBuffer *)
Module RingBuffer.
Section Buffer.
Context {T : Type}.

Record t := { buffer : list T; limit : Limit; pointer : nat }.

(** [new RingBuffer()]: [limit = Infinity]. *)
Definition new : t := {| buffer := []; limit := Infinity; pointer := 0 |}.

Definition clear (this : t) : t :=
  {| buffer := []; limit := limit this; pointer := 0 |}.

(** [buffer.slice(-limit)]: the last [limit] items. *)
Definition slice_last (l : Limit) (items : list T) : list T :=
  match l with
  | Infinity => items
  | Finite n => drop (length items - n) items
  end.

(** The setter of [limit].  It stores the new limit first, so the
    comparison with [this.limit] that follows reads the value just
    stored. *)
Definition set_limit (this : t) (l : Limit) : t :=
  let this :=
    {| buffer := buffer this; limit := l; pointer := pointer this |} in
  let this :=
    if Limit_eqb l (Finite 0) then clear this
    else if negb (Limit_eqb l (limit this)) then
      let kept := slice_last l (buffer this) in
      {| buffer := kept; limit := limit this; pointer := length kept |}
    else this in
  {| buffer := buffer this; limit := l; pointer := pointer this |}.

(** [(pointer + 1) % limit]; [x % Infinity] is [x].  The limit is
    never [0] in a transport (see [MemoryTransport.new]). *)
Definition advance (p : nat) (l : Limit) : nat :=
  match l with
  | Infinity => p + 1
  | Finite n => (p + 1) mod n
  end.

(** [push(value)].  When the buffer is full, [pointer] is an index of
    the buffer (lemma [pointer_in_range] below), so the assignment
    [buffer[pointer] = value] replaces the item at that index. *)
Definition push (this : t) (value : T) : t :=
  let buffer :=
    if Limit_eqb (Finite (length (buffer this))) (limit this)
    then <[pointer this := value]> (buffer this)
    else buffer this ++ [value] in
  {| buffer := buffer; limit := limit this;
     pointer := advance (pointer this) (limit this) |}.

(** [*[Symbol.iterator]() { yield* this.#buffer }]. *)
Definition iterator (this : t) : list T := buffer this.

End Buffer.
Arguments t : clear implicits.
End RingBuffer.

(** The events of [EventMap] (transports/mod.ts).  An "update" is a
    [MessageEvent] carrying the update as [data]; the other four are
    [CustomEvent]s whose [detail] names a subscriber or a subscription. *)
Inductive Event :=
| UpdateEvent (data : Update)
| SubscribeEvent (subscription : string)
| UnsubscribeEvent (subscription : string)
| ConnectEvent (subscriber : string)
| DisconnectEvent (subscriber : string).

Definition event_type (e : Event) : string :=
  match e with
  | UpdateEvent _ => "update"
  | SubscribeEvent _ => "subscribe"
  | UnsubscribeEvent _ => "unsubscribe"
  | ConnectEvent _ => "connect"
  | DisconnectEvent _ => "disconnect"
  end.

(** [(event as MessageEvent<Update>).data]. *)
Definition event_data (e : Event) : option Update :=
  match e with
  | UpdateEvent data => Some data
  | _ => None
  end.

(** The runtime's [EventTarget]: the registered listeners, each a
    callback known by its identity, in registration order, and the calls
    made so far. *)
Module EventTarget.

Definition Listener : Type := nat.

Record t := {
  listeners : list (string * Listener);
  calls : list (Listener * Event);
}.

Definition new : t := {| listeners := []; calls := [] |}.

Definition registered (this : t) (type : string) (l : Listener) : bool :=
  existsb (fun r => String.eqb (fst r) type && (snd r =? l)%nat)
          (listeners this).

(** Registering a callback twice for one type has no effect. *)
Definition addEventListener (this : t) (type : string) (l : Listener)
  : t :=
  if registered this type l then this
  else {| listeners := listeners this ++ [(type, l)];
          calls := calls this |}.

Definition removeEventListener (this : t) (type : string) (l : Listener)
  : t :=
  {| listeners :=
       List.filter
         (fun r => negb (String.eqb (fst r) type && (snd r =? l)%nat))
         (listeners this);
     calls := calls this |}.

(** The listeners that [dispatchEvent] calls for an event. *)
Definition listening (this : t) (e : Event) : list Listener :=
  map snd
    (List.filter (fun r => String.eqb (fst r) (event_type e))
                 (listeners this)).

Definition dispatchEvent (this : t) (e : Event) : t :=
  {| listeners := listeners this;
     calls := calls this ++ map (fun l => (l, e)) (listening this e) |}.

End EventTarget.

(** *** class MemoryTransport *)
Module MemoryTransport.

Record t := {
  target : EventTarget.t;
  store : RingBuffer.t Update;
}.

(** [new MemoryTransport(limit?)]: the limit is applied when it is
    truthy. *)
Definition new (limit : option Limit) : t :=
  {| target := EventTarget.new;
     store :=
       match limit with
       | Some l =>
           if Limit_truthy l
           then RingBuffer.set_limit RingBuffer.new l
           else RingBuffer.new
       | None => RingBuffer.new
       end |}.

(** The generator [eventsAfter], as the list of the updates it yields
    when it is run to its end on the present store. *)
Fixpoint scan (next : bool) (lastEventId : string)
    (updates : list Update) : list Update :=
  match updates with
  | [] => []
  | update :: rest =>
      (if next then [update] else []) ++
      scan (if String.eqb (id update) lastEventId then true else next)
           lastEventId rest
  end.

Definition eventsAfter (this : t) (lastEventId : string) : list Update :=
  scan (String.eqb lastEventId earliestEventId) lastEventId
       (RingBuffer.iterator (store this)).

Definition addEventListener (this : t) (type : string)
    (listener : EventTarget.Listener) : t :=
  {| target := EventTarget.addEventListener (target this) type listener;
     store := store this |}.

Definition removeEventListener (this : t) (type : string)
    (listener : EventTarget.Listener) : t :=
  {| target := EventTarget.removeEventListener (target this) type listener;
     store := store this |}.

(** [dispatchEvent(event)].  An event of type "update" is a
    [MessageEvent<Update>], so its [data] is there. *)
Definition dispatchEvent (this : t) (event : Event) : t :=
  let store :=
    if String.eqb (event_type event) "update" then
      match event_data event with
      | Some update => RingBuffer.push (store this) update
      | None => store this
      end
    else store this in
  {| target := EventTarget.dispatchEvent (target this) event;
     store := store |}.

(** The transport after a sequence of events, dispatched in order. *)
Definition dispatchAll (this : t) (events : list Event) : t :=
  fold_left dispatchEvent events this.

End MemoryTransport.

End Memory.

(** ** Requests, responses and the configuration *)

Module Http.
Import JS.

(** The runtime's [Headers]: names are lower-cased, one value a name. *)
Module Headers.

Definition get (h : gmap string string) (name : string) : option string :=
  h !! toLowerCase name.

Definition set (h : gmap string string) (name value : string)
  : gmap string string :=
  <[toLowerCase name := value]> h.

(** [append] joins the values of a repeated name with a comma. *)
Definition append (h : gmap string string) (name value : string)
  : gmap string string :=
  match h !! toLowerCase name with
  | Some old => <[toLowerCase name := old +:+ ", " +:+ value]> h
  | None => <[toLowerCase name := value]> h
  end.

(** [new Headers(init)] for a record [init], given as its entries. *)
Definition new (init : list (string * string)) : gmap string string :=
  fold_left (fun h entry => append h (fst entry) (snd entry)) init ∅.

End Headers.

(** An object literal [{ ...o, [key]: value }] on a record given as its
    entries: an own key keeps its place and takes the new value. *)
Fixpoint assign (o : list (string * string)) (key value : string)
  : list (string * string) :=
  match o with
  | [] => [(key, value)]
  | (k, v) :: rest =>
      if String.eqb k key then (k, value) :: rest
      else (k, v) :: assign rest key value
  end.

Definition spread (o extra : list (string * string))
  : list (string * string) :=
  fold_left (fun o entry => assign o (fst entry) (snd entry)) extra o.

(** A [Request], with the search parameters of its URL as
    [new URL(request.url).searchParams] lists them. *)
Record Request := {
  method : string;
  url : string;
  headers : gmap string string;
  searchParams : list (string * string);
}.

(** [searchParams.get(name)]: the first value of the name. *)
Definition searchParams_get (r : Request) (name : string) : option string :=
  snd <$> List.find (fun p => String.eqb (fst p) name) (searchParams r).

(** The body of a [Response]: a text, the JSON text of an error payload
    (its [toJSON()]: status, message and, for a validation error, the
    field errors), or a stream. *)
Inductive Body :=
| Text (text : string)
| Json (status : nat) (error : string)
       (errors : option (list (string * list string)))
| Stream.

Record Response := {
  status : nat;
  response_headers : gmap string string;
  body : Body;
}.

End Http.

(** The options of the configuration schema that the server reads. *)
Module Config.

Record Configuration := {
  queryParamAuthorization : bool;
  cookieName : string;
  anonymousAccess : bool;
  allowedOrigins : list string;
  metrics : bool;
}.

End Config.

(** ** jws.ts and server/authorization.ts *)

Module Authorization.
Import JS Http Config.

(** [getCookies] of the [@std/http] package: the pairs of the Cookie
    header, split at [;] and at the first [=], the name trimmed, as the
    own properties of a plain object ([out[key] = value]: a later pair
    replaces an earlier one of the same name). *)
Fixpoint splitAt (sep : ascii) (s : string) : string * option string :=
  match s with
  | "" => ("", None)
  | String c rest =>
      if Ascii.eqb c sep then ("", Some rest)
      else let '(head, tail) := splitAt sep rest in (String c head, tail)
  end.

Fixpoint splitAll (fuel : nat) (sep : ascii) (s : string) : list string :=
  match fuel with
  | 0 => [s]
  | S fuel =>
      match splitAt sep s with
      | (head, None) => [head]
      | (head, Some rest) => head :: splitAll fuel sep rest
      end
  end.

(** [String.prototype.trim] on a header value.  The runtime gives a
    header value as a byte string, one character for each byte (code
    points up to 255), and so does the model.  Of the white space and the
    line terminators of the language, these are the ones in that range:
    TAB, LF, VT, FF, CR, the space and the no-break space U+00A0. *)
Definition isSpace (c : ascii) : bool :=
  existsb (Nat.eqb (nat_of_ascii c)) [9; 10; 11; 12; 13; 32; 160].

Fixpoint trimStart (s : string) : string :=
  match s with
  | String c rest => if isSpace c then trimStart rest else s
  | "" => ""
  end.

Definition trim (s : string) : string :=
  String.rev (trimStart (String.rev (trimStart s))).

Definition getCookies (headers : gmap string string) : gmap string string :=
  match Headers.get headers "Cookie" with
  | Some cookie =>
      fold_left
        (fun out kv =>
           let '(key, value) := splitAt "=" kv in
           <[trim key := default "" value]> out)
        (splitAll (String.length cookie) ";" cookie) ∅
  | None => ∅
  end.

Section Authorize.

(** The key and the verified payload of a token are values of the
    [jose] package; [jwtVerify] is its verification, called with the
    claims that it must require. *)
Context {JsonWebKey MercureTokenPayload : Type}.
Variable jwtVerify :
  string -> JsonWebKey -> list string -> result MercureTokenPayload.

(** The runtime's [new URL(input)]. *)
Variable URL_new : string -> result URL.

(** What [jwtVerify] throws when it is handed a value that is neither a
    string nor a byte array, before it looks at the key: the [JWSInvalid]
    error of the package, by its message. *)
Definition notCompact : Exception :=
  Error "Compact JWS must be a string or Uint8Array" None.

(** [verifyJwt(key, token)] (jws.ts), called without options.  The token
    is a string when it comes from the Authorization header or from the
    query; read from the record of the cookies it is a property of that
    record, own or inherited. *)
Definition verifyJwt (key : JsonWebKey) (token : Property)
  : result MercureTokenPayload :=
  let verified :=
    match token with
    | Own jwt => jwtVerify jwt key ["mercure"]
    | FromPrototype _ => throw notCompact
    end in
  match verified with
  | inr verified => ok verified
  | inl cause =>
      throw (Error ("Failed to verify JWT: " +:+ message cause) (Some cause))
  end.

Definition parseToken (token : Property) (jwk : JsonWebKey)
  : result MercureTokenPayload :=
  match verifyJwt jwk token with
  | inr payload => ok payload
  | inl cause => throw (HttpError 403 "Forbidden" [] (Some cause))
  end.

(** A string that may be [null] or [undefined], read as a condition. *)
Definition present (s : option string) : bool :=
  match s with Some s => truthy s | None => false end.

Definition invalid_token : string :=
  "Bearer realm=" +:+ dquote +:+ "mercure" +:+ dquote +:+
  ", error=" +:+ dquote +:+ "invalid_token" +:+ dquote.

Definition realm : string :=
  "Bearer realm=" +:+ dquote +:+ "mercure" +:+ dquote.

(** The origin that [authorize] checks: the Origin header, else the
    origin of the Referer (or Referrer) header. *)
Definition resolveOrigin (request : Request) : result (option string) :=
  let origin := Headers.get (headers request) "origin" in
  if present origin then ok origin
  else
    let originHeader :=
      match Headers.get (headers request) "referer" with
      | Some v => Some v
      | None => Headers.get (headers request) "referrer"
      end in
    match originHeader with
    | Some v =>
        if truthy v then let? u := URL_new v in ok (Some (JS.origin u))
        else ok None
    | None => ok None
    end.

Definition includes (l : list string) (s : string) : bool :=
  existsb (String.eqb s) l.

(** [authorize(request, config, keyResolver)]: the verified payload,
    or [undefined] for an anonymous request. *)
Definition authorize (request : Request) (config : Configuration)
    (keyResolver : Configuration -> result JsonWebKey)
  : result (option MercureTokenPayload) :=
  let authorization := Headers.get (headers request) "authorization" in
  if present authorization then
    let '(type, token) := splitSpace2 (default "" authorization) in
    if negb (String.eqb type "Bearer") || negb (present token) then
      throw (HttpError 401 "Unauthorized"
               [("WWW-Authenticate", invalid_token)] None)
    else
      let? key := keyResolver config in
      let? payload := parseToken (Own (default "" token)) key in
      ok (Some payload)
  else
    let queryToken :=
      if queryParamAuthorization config
      then searchParams_get request "authorization"
      else None in
    if present queryToken then
      let? key := keyResolver config in
      let? payload := parseToken (Own (default "" queryToken)) key in
      ok (Some payload)
    else
      (* [cookies[config.cookieName] ?? undefined], on a plain object *)
      let cookies := getCookies (headers request) in
      let token := property cookies (cookieName config) in
      if negb (truthyProperty token) && negb (anonymousAccess config) then
        throw (HttpError 401 "Unauthorized" [("WWW-Authenticate", realm)]
                 None)
      else
        let? origin := resolveOrigin request in
        if present origin &&
           negb (includes (allowedOrigins config) (default "" origin)) &&
           negb (includes (allowedOrigins config) "*")
        then throw (HttpError 403 "Forbidden" [] None)
        else
          match token with
          | Some value =>
              if truthyProperty token then
                let? key := keyResolver config in
                let? payload := parseToken value key in
                ok (Some payload)
              else ok None
          | None => ok None
          end.

End Authorize.

End Authorization.

(** ** server/router.ts, server/_errors.ts and server/handler.ts *)

Module Handler.
Import JS Http Config.

Section Server.

(** A route's [URLPattern] and its [exec], which yields the groups of
    the path on a match; and the hub that the handlers share. *)
Context {URLPattern Hub : Type}.
Variable URLPattern_exec :
  URLPattern -> string -> option (list (string * string)).

(** [resolveAcceptedMediaTypes(request)] (server/utils.ts): the media
    types of the Accept header, sorted by their floating-point weights.
    It returns for every request; the error renderer reads it only to
    choose between the JSON and the text rendering. *)
Variable resolveAcceptedMediaTypes : Request -> list string.

Record RequestContext := {
  parameters : list (string * string);
  request : Request;
  config : Configuration;
  hub : Hub;
  context_url : string;
}.

Definition HandlerFn : Type := RequestContext -> result Response.

(** *** class Router: the routes in registration order, each with its
    handlers by verb. *)
Definition Routes : Type :=
  list (URLPattern * list (string * HandlerFn)).

Definition handlers_get (handlers : list (string * HandlerFn))
    (verb : string) : option HandlerFn :=
  snd <$> List.find (fun h => String.eqb (fst h) verb) handlers.

(** [s.toUpperCase()] on the ASCII range. *)
Definition upperAscii (c : ascii) : ascii :=
  let n := nat_of_ascii c in
  if (97 <=? n)%nat && (n <=? 122)%nat then ascii_of_nat (n - 32) else c.
Fixpoint toUpperCase (s : string) : string :=
  match s with
  | "" => ""
  | String c rest => String (upperAscii c) (toUpperCase rest)
  end.

Fixpoint Router_match (routes : Routes) (request : Request)
  : HandlerFn * list (string * string) :=
  match routes with
  | [] => (fun _ => throw (HttpError 404 "Not Found" [] None), [])
  | (pattern, handlers) :: rest =>
      match URLPattern_exec pattern (url request) with
      | Some groups =>
          let verb := toLowerCase (method request) in
          match handlers_get handlers verb with
          | Some handler => (handler, groups)
          | None =>
              (fun _ =>
                 throw (HttpError 405 "Method not allowed"
                          [("allow",
                            join ", " (map (fun h => toUpperCase (fst h))
                                           handlers))] None),
               [])
          end
      | None => Router_match rest request
      end
  end.

(** *** The payload of an error response: [status], [headers],
    [toJSON()] and [toString()] of a [ResponsableError]. *)
Definition responsable (error : Exception) : Exception :=
  match error with
  | HttpError _ _ _ _ => error
  | ValidationError _ _ => error
  | _ => HttpError 500 "Internal Server Error" [] (Some error)
  end.

Definition error_status (payload : Exception) : nat :=
  match payload with
  | HttpError status _ _ _ => status
  | ValidationError _ _ => 400
  | _ => 500
  end.

Definition error_headers (payload : Exception) : list (string * string) :=
  match payload with
  | HttpError _ _ headers _ => headers
  | _ => []
  end.

Definition error_toJSON (payload : Exception) : Body :=
  match payload with
  | ValidationError _ fieldErrors =>
      Json 400 (message payload) (Some fieldErrors)
  | _ => Json (error_status payload) (message payload) None
  end.

Definition error_toString (payload : Exception) : string :=
  match payload with
  | ValidationError issues _ => join "; " issues
  | _ => message payload
  end.

Definition handleError (request : Request) (error : Exception)
  : Response :=
  let accept := resolveAcceptedMediaTypes request in
  let acceptsJSON := existsb (String.eqb "application/json") accept in
  let payload := responsable error in
  {| status := error_status payload;
     response_headers :=
       Headers.new
         (spread
            [("content-type",
              if acceptsJSON then "application/json; charset=utf-8"
              else "text/plain; charset=utf-8")]
            (error_headers payload));
     body := if acceptsJSON then error_toJSON payload
             else Text (error_toString payload) |}.

Definition withGenericHeaders (response : Response) : Response :=
  let h := response_headers response in
  let h := Headers.set h "server" "Mercure/0.0.1 (Deno)" in
  let h := Headers.set h "x-content-type-options" "nosniff" in
  let h := Headers.set h "x-frame-options" "DENY" in
  let h := Headers.set h "x-xss-protection" "1; mode=block" in
  let h := Headers.set h "referrer-policy" "same-origin" in
  {| status := status response; response_headers := h;
     body := body response |}.

(** [createHandler(router, hub, config)]: the function [respond].  The
    [finally] block logs the exchange and, when metrics are on, records
    its duration; it leaves the response as it is. *)
Definition createHandler (router : Routes) (hub : Hub)
    (config : Configuration) (request : Request) : Response :=
  let '(handler, parameters) := Router_match router request in
  let response :=
    match handler {| parameters := parameters; request := request;
                     config := config; hub := hub;
                     context_url := url request |} with
    | inr response => response
    | inl error => handleError request error
    end in
  withGenericHeaders response.

End Server.

End Handler.

(** ** The runtime, for the examples

    [parse] of the [deno_uri_template] package, the constructor of the
    runtime's [URLPattern] and the cache of the [lru] package are not
    code of the repository; the theorems hold for whatever they are.
    This module fixes, for the examples that run the converter, what
    RFC 6570 and the URL Pattern standard prescribe: the expressions of a
    template, and that a pattern string without a protocol is relative
    and needs a base URL (the doc comment of [createTopicSelector] says
    the same of its [baseURL]: "Required if the topic is a relative URL
    pattern"); and a cache that evicts the entry least recently used. *)

Module Runtime.
Import JS UriTemplate.

(** The operators of RFC 6570 (appendix A): [first], [separator],
    [named], [ifEmpty], [allowReserved]. *)
Definition operator (op : string) (terms : list Term) : VariableExpression :=
  let mk first sep named ifemp allow :=
    {| terms := terms; separator := sep; first := first;
       allowReserved := allow; ifEmpty := ifemp; named := named |} in
  if String.eqb op "+" then mk "" "," false "" true
  else if String.eqb op "#" then mk "#" "," false "" true
  else if String.eqb op "." then mk "." "." false "" false
  else if String.eqb op "/" then mk "/" "/" false "" false
  else if String.eqb op ";" then mk ";" ";" true "" false
  else if String.eqb op "?" then mk "?" "&" true "=" false
  else if String.eqb op "&" then mk "&" "&" true "=" false
  else mk "" "," false "" false.

Definition isOperator (c : ascii) : bool :=
  existsb (Ascii.eqb c) ["+"; "#"; "."; "/"; ";"; "?"; "&"]%char.

(** The decimal number that a string of digits writes. *)
Definition digits (s : string) : nat :=
  fold_left (fun n c => 10 * n + (nat_of_ascii c - 48))
            (list_ascii_of_string s) 0.

(** A variable with its modifier: [name], [name:3] or [name*]. *)
Definition varspec (s : string) : Term :=
  if endsWith "*" s then
    {| name := substring 0 (String.length s - 1) s;
       truncate := 0; explode := true |}
  else
    match Authorization.splitAt ":" s with
    | (n, Some len) => {| name := n; truncate := digits len; explode := false |}
    | (n, None) => {| name := n; truncate := 0; explode := false |}
    end.

Definition expression (body : string) : Expression :=
  let '(op, vars) :=
    match body with
    | String c rest =>
        if isOperator c then (String c "", rest) else ("", body)
    | "" => ("", "")
    end in
  VariableExpr
    (operator op
       (map varspec
            (Authorization.splitAll (String.length vars) "," vars))).

Definition flush (literal : string) : list Expression :=
  if String.eqb literal "" then [] else [Literal literal].

(** The template read from left to right: [literal] is the text since
    the last expression, [body] the text since an open brace. *)
Fixpoint parseFrom (s literal : string) (body : option string)
  : result (list Expression) :=
  match s, body with
  | "", None => ok (flush literal)
  | "", Some _ => throw (Error "Unterminated expression" None)
  | String c rest, None =>
      if Ascii.eqb c "{" then
        let? tail := parseFrom rest "" (Some "") in
        ok (flush literal ++ tail)
      else parseFrom rest (literal +:+ String c "") None
  | String c rest, Some b =>
      if Ascii.eqb c "}" then
        let? tail := parseFrom rest "" None in
        ok (expression b :: tail)
      else parseFrom rest literal (Some (b +:+ String c ""))
  end.

Definition parse (template : string) : result (list Expression) :=
  parseFrom template "" None.

(** A constructed pattern is known by the arguments it was made from. *)
Definition URLPattern : Type := string * option string.

(** Whether the constructor finds a protocol in a pattern string.  It
    reads the string token by token and takes as the protocol what
    precedes the first colon that stands for itself outside braces: a
    colon followed by the first character of a name starts a named group
    ([:id]) and is no such colon, a colon after a backslash is one, and
    whatever stands between parentheses is a regular expression and is
    passed over.  The names are read on the ASCII range, where a name
    starts with a letter, [_] or [$] and goes on with these and digits;
    the bytes of other characters count as letters. *)
Inductive Reading :=
| Plain
| Escaped
| Colon
| Name
| Group (nesting : nat)
| GroupEscaped (nesting : nat).

Definition nameStart (c : ascii) : bool :=
  let n := nat_of_ascii c in
  ((65 <=? n) && (n <=? 90) || (97 <=? n) && (n <=? 122) ||
   (n =? 95) || (n =? 36) || (128 <=? n))%nat.

Definition namePart (c : ascii) : bool :=
  let n := nat_of_ascii c in
  nameStart c || ((48 <=? n) && (n <=? 57))%nat.

(** A character read outside a name and outside parentheses. *)
Definition plain (depth : nat) (c : ascii) : Reading * nat :=
  if Ascii.eqb c "\" then (Escaped, depth)
  else if Ascii.eqb c "{" then (Plain, S depth)
  else if Ascii.eqb c "}" then (Plain, Nat.pred depth)
  else if Ascii.eqb c ":" then (Colon, depth)
  else if Ascii.eqb c "(" then (Group 1, depth)
  else (Plain, depth).

(** One character: whether a colon that stands for itself has just been
    passed outside braces, and how the reading goes on. *)
Definition step (reading : Reading) (depth : nat) (c : ascii)
  : bool * (Reading * nat) :=
  match reading with
  | Plain => (false, plain depth c)
  | Escaped => (Ascii.eqb c ":" && (depth =? 0)%nat, (Plain, depth))
  | Colon =>
      if nameStart c then (false, (Name, depth))
      else ((depth =? 0)%nat, plain depth c)
  | Name =>
      if namePart c then (false, (Name, depth)) else (false, plain depth c)
  | Group nesting =>
      if Ascii.eqb c "\" then (false, (GroupEscaped nesting, depth))
      else if Ascii.eqb c "(" then (false, (Group (S nesting), depth))
      else if Ascii.eqb c ")" then
        (false, (match nesting with
                 | S (S n) => Group (S n)
                 | _ => Plain
                 end, depth))
      else (false, (Group nesting, depth))
  | GroupEscaped nesting => (false, (Group nesting, depth))
  end.

Fixpoint protocolFrom (reading : Reading) (depth : nat) (input : string)
  : bool :=
  match input with
  | "" =>
      match reading with
      | Colon => (depth =? 0)%nat
      | _ => false
      end
  | String c rest =>
      let '(found, (reading, depth)) := step reading depth c in
      found || protocolFrom reading depth rest
  end.

Definition hasProtocol (input : string) : bool :=
  protocolFrom Plain 0 input.

(** [new URLPattern(input, baseURL)], as far as the examples go: a
    pattern string without a protocol is relative and needs a base URL.
    Of what else the constructor rejects (a component that does not
    parse) the examples have nothing. *)
Definition URLPattern_new (input : string) (baseURL : option string)
  : result URLPattern :=
  match baseURL with
  | None =>
      if hasProtocol input then ok (input, None)
      else throw (TypeError "a relative pattern needs a base URL")
  | Some base => ok (input, Some base)
  end.

(** The cache of the [lru] package, for the examples: the entries from
    the most recently used to the least, at most [capacity] of them.  A
    read moves the entry to the front; [set] puts the entry in front and
    drops what no longer fits at the end. *)
Definition Cache : Type := list (string * URLPattern).

Definition capacity : nat := 100 * 100.

Definition without (cache : Cache) (key : string) : Cache :=
  List.filter (fun entry => negb (String.eqb (fst entry) key)) cache.

Definition LRU_read (cache : Cache) (key : string)
  : option (URLPattern * Cache) :=
  match List.find (fun entry => String.eqb (fst entry) key) cache with
  | Some (_, pattern) => Some (pattern, (key, pattern) :: without cache key)
  | None => None
  end.

Definition LRU_set (cache : Cache) (key : string) (pattern : URLPattern)
  : Cache :=
  take capacity ((key, pattern) :: without cache key).

End Runtime.

(** ** hub.ts *)

Module Hub.
Import Memory.

(** The hub over the in-memory transport. *)
Record t := { transport : MemoryTransport.t }.

(** [eventsAfter(lastEventId = earliestEventId)]. *)
Definition eventsAfter (this : t) (lastEventId : option string)
  : list Updates.Update :=
  MemoryTransport.eventsAfter (transport this)
    (default earliestEventId lastEventId).

Definition dispatchEvent (this : t) (event : Event) : t :=
  {| transport := MemoryTransport.dispatchEvent (transport this) event |}.

End Hub.

(** ** subscribers.ts: heartbeats *)

Module Heartbeats.
Import JS Updates Subscribers.

(** The chunk of a heartbeat: a colon, the four bytes of the heart sign
    (U+1F493 in UTF-8) and a blank line. *)
Definition heartbeat : string :=
  ":" +:+ String (ascii_of_nat 240) (String (ascii_of_nat 159)
            (String (ascii_of_nat 146) (String (ascii_of_nat 147) ""))) +:+
  newline +:+ newline.

Section Heartbeats.

Context {URLPattern : Type}.

(** A timer field read as a condition: [undefined] and [0] are falsy. *)
Definition armed (this : Subscriber URLPattern) : bool :=
  match heartbeatTimer this with
  | Some 0 | None => false
  | Some _ => true
  end.

(** [enableHeartbeats(interval)]; [timer] is the number that
    [setInterval] returns. *)
Definition enableHeartbeats (this : Subscriber URLPattern) (timer : nat)
  : Subscriber URLPattern :=
  let this := if armed this then disableHeartbeats this else this in
  with_heartbeatTimer this (Some timer).

(** [#sendHeartbeat()], what the interval runs. *)
Definition sendHeartbeat (this : Subscriber URLPattern) (log : Log)
  : Subscriber URLPattern * Log :=
  if negb (armed this) then (this, log)
  else
    let '(stream, log) := EventStream.write (stream this) heartbeat log in
    let this := with_stream this stream in
    let this := target_dispatchEvent this HeartbeatEvent in
    (this, log).

End Heartbeats.

End Heartbeats.

(** ** server/subscription.ts: the helpers of the subscription handler *)

Module SubscriptionHandler.
Import JS Updates Subscribers Http.

(** The payload of a verified token, as far as [checkClaims] reads it:
    the [mercure] claim, a JSON text. *)
Record MercureTokenPayload := { mercure : option string }.

Section Handler.

Context {URLPattern : Type}.
Variable URLPattern_test : URLPattern -> string -> option string -> bool.
Variable JSON_stringify : Update -> string.

(** [sendUpdate(subscriber, update, anonymousAccess = false)]. *)
Definition sendUpdate (subscriber : Subscriber URLPattern) (update : Update)
    (anonymousAccess : option bool) (log : Log)
  : Subscriber URLPattern * Log :=
  if negb (canAccess URLPattern_test subscriber update
             (default false anonymousAccess))
  then (subscriber, log)
  else dispatch JSON_stringify subscriber update log.

(** [reconcile(hub, subscriber, { anonymousAccess, lastEventId })]: every
    update that the hub yields is handed to [sendUpdate], in order. *)
Definition reconcile (hub : Hub.t) (subscriber : Subscriber URLPattern)
    (lastEventId : option string) (anonymousAccess : option bool) (log : Log)
  : Subscriber URLPattern * Log :=
  let updates :=
    Hub.eventsAfter hub (Some (default Memory.earliestEventId lastEventId)) in
  fold_left
    (fun state update => sendUpdate (fst state) update anonymousAccess
                           (snd state))
    updates (subscriber, log).

(** [extractLastEventId(request)]: [??] passes over [null] only, so an
    empty header is the answer. *)
Definition extractLastEventId (request : Request) : option string :=
  match Headers.get (headers request) "Last-Event-ID" with
  | Some id => Some id
  | None =>
      match searchParams_get request "lastEventId" with
      | Some id => Some id
      | None => searchParams_get request "last-event-id"
      end
  end.

(** [JSON.parse] of the claim followed by the validation of the schema:
    the strings of [subscribe] and the payload, or what was thrown (a
    [SyntaxError] of the runtime or a [ZodError] of the package) together
    with its text, [`${cause}`]. *)
Variable parseMercureClaim :
  string -> (Exception * string) + (list string * option string).

(** [checkClaims(claims, baseUrl)].  The schema turns each string of
    [subscribe] into [new TopicSelector(topic, baseUrl)]. *)
Definition checkClaims (claims : option MercureTokenPayload) (baseUrl : URL)
  : result (list (Topic.TopicSelector URLPattern) * option string) :=
  match claims with
  | None => ok ([], None)
  | Some claims =>
      if negb (Authorization.present (mercure claims)) then
        throw (HttpError 403
                 ("Forbidden: Missing " +:+ dquote +:+ "mercure" +:+
                  dquote +:+ " claim") [] None)
      else
        match parseMercureClaim (default "" (mercure claims)) with
        | inr (subscribe, payload) =>
            ok (map (fun topic =>
                       {| Topic.selector := Topic.Str topic;
                          Topic.baseURL := Some baseUrl |})
                    subscribe,
                payload)
        | inl (cause, text) =>
            throw (HttpError 403
                     ("Forbidden: Invalid " +:+ dquote +:+ "mercure" +:+
                      dquote +:+ " claim: " +:+ text) [] (Some cause))
        end
  end.

End Handler.

End SubscriptionHandler.

(** ** topic.ts and server/utils.ts: selectors as strings *)

Module TopicStrings.
Import JS.

(** The components of a [URLPattern] that [urlPatternToString] reads. *)
Record Components := {
  protocol : string;
  hostname : string;
  port : string;
  pathname : string;
  search : string;
  hash : string;
}.

Definition urlPatternToString (pattern : Components) : string :=
  let origin :=
    hostname pattern +:+
    (if truthy (port pattern) then ":" +:+ port pattern else "") in
  let search :=
    if truthy (search pattern) && negb (String.eqb (search pattern) "*")
    then "?" +:+ search pattern else "" in
  let hash :=
    if truthy (hash pattern) && negb (String.eqb (hash pattern) "*")
    then "#" +:+ hash pattern else "" in
  protocol pattern +:+ "://" +:+ origin +:+ pathname pattern +:+
  search +:+ hash.

Definition compareUrlPattern (a b : Components) : bool :=
  String.eqb (urlPatternToString a) (urlPatternToString b).

Section ToString.

Context {URLPattern : Type}.

(** The getters of a pattern of the runtime. *)
Variable components : URLPattern -> Components.

(** [TopicSelector.toString()]. *)
Definition toString (s : Topic.TopicSelector URLPattern) : string :=
  match Topic.selector s with
  | Topic.Wildcard => "*"
  | Topic.Str topic => topic
  | Topic.Pattern pattern => urlPatternToString (components pattern)
  end.

End ToString.

End TopicStrings.

(** ** server/router.ts: registration *)

Module Routing.
Import JS Http Handler.

(** [Map.prototype.set] and [get] on a map given as its entries in
    insertion order: a key that is there keeps its place. *)
Fixpoint map_set {V} (m : list (string * V)) (key : string) (value : V)
  : list (string * V) :=
  match m with
  | [] => [(key, value)]
  | (k, v) :: rest =>
      if String.eqb k key then (k, value) :: rest
      else (k, v) :: map_set rest key value
  end.

Definition map_get {V} (m : list (string * V)) (key : string) : option V :=
  snd <$> List.find (fun entry => String.eqb (fst entry) key) m.

Section Router.

Context {URLPattern Hub : Type}.

(** [new URLPattern({ pathname })] of the runtime. *)
Variable URLPattern_of_pathname : string -> result URLPattern.

(** *** class Router.  [patterns] is the cache [#patterns]; the keys of
    [routes] are the pattern objects, each known by the route string it
    was built and cached for. *)
Record Router := {
  patterns : gmap string URLPattern;
  routes :
    list (string * (URLPattern * list (string * @HandlerFn Hub)));
}.

(** [new Router()]. *)
Definition new : Router := {| patterns := ∅; routes := [] |}.

(** [register(verbs, route, handler)]. *)
Definition register (this : Router) (verbs : list string) (route : string)
    (handler : @HandlerFn Hub) : result Router :=
  let? pattern :=
    match patterns this !! route with
    | Some pattern => ok pattern
    | None => URLPattern_of_pathname route
    end in
  let handlers :=
    match map_get (routes this) route with
    | Some (_, handlers) => handlers
    | None => []
    end in
  let handlers :=
    fold_left (fun handlers verb => map_set handlers verb handler)
              verbs handlers in
  ok {| patterns := <[route := pattern]> (patterns this);
        routes := map_set (routes this) route (pattern, handlers) |}.

Definition get (this : Router) (pattern : string) (handler : @HandlerFn Hub)
  : result Router :=
  register this ["get"] pattern handler.

Definition post (this : Router) (pattern : string)
    (handler : @HandlerFn Hub) : result Router :=
  register this ["post"] pattern handler.

Definition all (this : Router) (pattern : string) (handler : @HandlerFn Hub)
  : result Router :=
  register this ["*"] pattern handler.

(** The routes as [match] iterates them. *)
Definition entries (this : Router)
  : list (URLPattern * list (string * @HandlerFn Hub)) :=
  map snd (routes this).

End Router.

Arguments Router : clear implicits.

End Routing.

(** ** server/utils.ts *)

Module Utils.
Import JS Http.

(** [json(data, status = 200)], on the JSON text of the data, and
    [redirect(location, status = 302)]. *)
Definition json (text : string) (status : option nat) : Response :=
  {| Http.status := default 200 status;
     response_headers :=
       Headers.new [("content-type", "application/json; charset=utf-8")];
     body := Text text |}.

Definition redirect (location : string) (status : option nat) : Response :=
  {| Http.status := default 302 status;
     response_headers := Headers.new [("location", location)];
     body := Text ("Redirecting to " +:+ location) |}.

Definition checkContentType (request : Request) (acceptedType : string)
  : result unit :=
  match Headers.get (headers request) "content-type" with
  | Some contentType =>
      if negb (truthy contentType) then
        throw (HttpError 400 "Bad Request: Missing Content Type" [] None)
      else if negb (startsWith acceptedType contentType) then
        throw (HttpError 415
                 ("Unsupported Media Type: Use " +:+ acceptedType)
                 [("accept", acceptedType)] None)
      else ok tt
  | None =>
      throw (HttpError 400 "Bad Request: Missing Content Type" [] None)
  end.

Section FormData.

(** A [FormDataEntryValue]: a string or a file. *)
Context {V : Type}.

(** What a field of the extracted record holds: one value, or an array,
    whose first item is the inherited property when the name of the field
    is one of [objectPrototype]. *)
Inductive Item :=
| Value (value : V)
| Inherited (name : string).

Inductive Field :=
| Single (value : V)
| Several (items : list Item).

(** One step of the reduction: [{ ...data, [key]: ... }]. *)
Definition extractStep (data : gmap string Field) (entry : string * V)
  : gmap string Field :=
  let '(key, value) := entry in
  let field :=
    match data !! key with
    | Some (Several items) => Several (items ++ [Value value])
    | Some (Single first) => Several [Value first; Value value]
    | None =>
        if inherited key then Several [Inherited key; Value value]
        else Single value
    end in
  <[key := field]> data.

(** [extractFormData(formData)], on the entries of the form in order. *)
Definition extractFormData (entries : list (string * V))
  : gmap string Field :=
  fold_left extractStep entries ∅.

End FormData.

Arguments Item : clear implicits.
Arguments Field : clear implicits.

End Utils.

(** ** The vocabulary of the properties *)

Module Spec.
Import JS Updates Subscribers.

Section Access.

Context {URLPattern : Type}.
Variable URLPattern_test : URLPattern -> string -> option string -> bool.

(** The topic set of an update: [canonicalTopic, ...alternateTopics]. *)
Definition topicSet (update : Update) : list string :=
  canonicalTopic update :: alternateTopics update.

(** An update is private when its [private] property is [true]. *)
Definition isPrivate (update : Update) : bool :=
  match private update with Some b => b | None => false end.

(** Condition (1): a selector among the subscriptions matches the topics. *)
Definition subscribed (this : Subscriber URLPattern) (update : Update)
  : Prop :=
  exists subscription,
    In subscription (subscriptions this) /\
    Topic.test URLPattern_test (selector subscription) (topicSet update)
      = true.

(** Condition (2), second half: an authorized selector matches them. *)
Definition authorized (this : Subscriber URLPattern) (update : Update)
  : Prop :=
  exists selector,
    In selector (authorizedTopics this) /\
    Topic.test URLPattern_test selector (topicSet update) = true.

End Access.

(** The updates among a sequence of events, in order: the payloads of the
    publications. *)
Definition updatesOf (events : list Memory.Event) : list Update :=
  omap Memory.event_data events.

(** [n] items fit in a store of capacity [l]. *)
Definition within (l : Memory.Limit) (n : nat) : Prop :=
  match l with
  | Memory.Infinity => True
  | Memory.Finite m => n <= m
  end.

(** A public update on one topic, for the examples. *)
Definition publicUpdate (id topic data : string) : Update :=
  {| Updates.id := id; canonicalTopic := topic; alternateTopics := [];
     data := Some data; private := None; retry := None; type := None |}.


(** The frame that [dispatch] hands to the stream. *)
Definition jsonFrame (JSON_stringify : Update -> string) (update : Update)
  : string :=
  "data: " +:+ JSON_stringify update +:+ newline +:+ newline.

(** A subscriber to every topic, without authorized topics, on a stream in
    the given state, for the examples. *)
Definition wildcardSubscriber (w : WriterState) : Subscriber Empty_set :=
  {| Subscribers.id := "urn:uuid:s";
     subscriptions :=
       [{| subscription_id := "urn:uuid:t";
           selector := {| Topic.selector := Topic.Wildcard;
                          Topic.baseURL := None |} |}];
     authorizedTopics := [];
     payload := None;
     active := true;
     stream := {| EventStream.stream := {| state := w; chunks := [] |} |};
     heartbeatTimer := None;
     lastEventId := None;
     dispatched := [] |}.

(** A request that names no authorization query parameter to read: the
    mechanism is off, or the parameter is absent or empty. *)
Definition noQueryToken (request : Http.Request)
    (config : Config.Configuration) : Prop :=
  Config.queryParamAuthorization config = false \/
  Authorization.present (Http.searchParams_get request "authorization")
    = false.

(** The token of the configured cookie, if the request has one. *)
Definition cookieToken (request : Http.Request)
    (config : Config.Configuration) : option string :=
  Authorization.getCookies (Http.headers request)
    !! Config.cookieName config.

(** What [authorize] reads under the configured name in the record of
    the cookies: the cookie, or what the record inherits under that
    name. *)
Definition cookieProperty (request : Http.Request)
    (config : Config.Configuration) : option JS.Property :=
  JS.property (Authorization.getCookies (Http.headers request))
    (Config.cookieName config).

(** A GET request on the hub with the given headers and search
    parameters, and a hub configuration that allows one origin, for the
    examples. *)
Definition hubRequest (headers : list (string * string))
    (searchParams : list (string * string)) : Http.Request :=
  {| Http.method := "GET";
     Http.url := "https://hub.example/.well-known/mercure";
     Http.headers := Http.Headers.new headers;
     Http.searchParams := searchParams |}.

Definition hubConfig (queryParamAuthorization anonymousAccess : bool)
  : Config.Configuration :=
  {| Config.queryParamAuthorization := queryParamAuthorization;
     Config.cookieName := "mercureAuthorization";
     Config.anonymousAccess := anonymousAccess;
     Config.allowedOrigins := ["https://app.example"];
     Config.metrics := false |}.


(** The state of a ring buffer that a transport can be in: the limit is
    not [0]; until the buffer is full, [pointer] is its length; once it is
    full, [pointer] is an index of the buffer. *)
Definition wellFormed {T} (rb : Memory.RingBuffer.t T) : Prop :=
  match Memory.RingBuffer.limit rb with
  | Memory.Infinity =>
      Memory.RingBuffer.pointer rb = length (Memory.RingBuffer.buffer rb)
  | Memory.Finite m =>
      0 < m /\
      length (Memory.RingBuffer.buffer rb) <= m /\
      Memory.RingBuffer.pointer rb < m /\
      (length (Memory.RingBuffer.buffer rb) < m ->
       Memory.RingBuffer.pointer rb = length (Memory.RingBuffer.buffer rb))
  end.

(** The last [m] items of a list, oldest first: what a store of capacity
    [m] is meant to retain. *)
Definition window {T} (m : nat) (items : list T) : list T :=
  drop (length items - m) items.

(** A ring buffer read from its pointer around: the items from the slot
    that the next [push] replaces to the end, then those before it. *)
Definition fromPointer {T} (rb : Memory.RingBuffer.t T) : list T :=
  drop (Memory.RingBuffer.pointer rb) (Memory.RingBuffer.buffer rb) ++
  take (Memory.RingBuffer.pointer rb) (Memory.RingBuffer.buffer rb).

(** The chunks that a subscriber has been sent. *)
Definition sent {URLPattern} (this : Subscriber URLPattern)
  : list (list Byte.byte) :=
  chunks (EventStream.stream (stream this)).

(** Whether the stream of a subscriber takes writes. *)
Definition writable {URLPattern} (this : Subscriber URLPattern) : Prop :=
  state (EventStream.stream (stream this)) = Writable.

Section Replay.

Context {URLPattern : Type}.
Variable URLPattern_test : URLPattern -> string -> option string -> bool.

(** The updates of a list that a subscriber may receive, in order. *)
Definition accessible (this : Subscriber URLPattern)
    (anonymousAccess : option bool) (updates : list Update) : list Update :=
  List.filter
    (fun update =>
       canAccess URLPattern_test this update (default false anonymousAccess))
    updates.

End Replay.

(** A private update, and a subscriber to every topic whose token
    authorizes the given literal topics, for the examples. *)
Definition privateUpdate (id topic data : string) : Update :=
  {| Updates.id := id; canonicalTopic := topic; alternateTopics := [];
     data := Some data; private := Some true; retry := None; type := None |}.

Definition authorizedSubscriber (w : WriterState) (topics : list string)
  : Subscriber Empty_set :=
  {| Subscribers.id := "urn:uuid:s";
     subscriptions :=
       [{| subscription_id := "urn:uuid:t";
           selector := {| Topic.selector := Topic.Wildcard;
                          Topic.baseURL := None |} |}];
     authorizedTopics :=
       map (fun topic => {| Topic.selector := Topic.Str topic;
                            Topic.baseURL := None |}) topics;
     payload := None;
     active := true;
     stream := {| EventStream.stream := {| state := w; chunks := [] |} |};
     heartbeatTimer := None;
     lastEventId := None;
     dispatched := [] |}.

(** A hub on the default in-memory transport after the given events. *)
Definition hubAfter (events : list Memory.Event) : Hub.t :=
  {| Hub.transport :=
       Memory.MemoryTransport.dispatchAll (Memory.MemoryTransport.new None)
         events |}.


(** A verification that accepts the token [good] alone, and a [new URL]
    that rejects every input, for the examples. *)
Definition verifyGood (token : string) (key : unit) (claims : list string)
  : JS.result string :=
  if String.eqb token "good" then JS.ok "payload"
  else JS.throw (JS.Error "signature verification failed" None).

Definition invalidURL (input : string) : JS.result JS.URL :=
  JS.throw (JS.TypeError "Invalid URL").


(** The names of the headers that [withGenericHeaders] sets. *)
Definition genericHeaders : list string :=
  ["server"; "x-content-type-options"; "x-frame-options";
   "x-xss-protection"; "referrer-policy"].


(** A pattern given as the end of the URLs that it matches, without
    groups, and a handler that answers 200, for the examples. *)
Definition execSuffix (pattern url : string)
  : option (list (string * string)) :=
  if JS.endsWith pattern url then Some [] else None.

Definition okHandler : @Handler.HandlerFn unit :=
  fun _ =>
    JS.ok {| Http.status := 200; Http.response_headers := ∅;
             Http.body := Http.Text "ok" |}.


(** The router after [get("/mercure", okHandler)] on a new router, with
    the path itself as the pattern, for the examples. *)
Definition mercureRouter : Routing.Router string unit :=
  {| Routing.patterns := <["/mercure" := "/mercure"]> ∅;
     Routing.routes := [("/mercure", ("/mercure", [("get", okHandler)]))] |}.


(** The values that a form gives for a name, in the order of the form,
    and the field that they make: a single value alone, several values as
    an array, and for a name that every object inherits an array that
    starts with the inherited property. *)
Definition valuesOf {V} (key : string) (entries : list (string * V))
  : list V :=
  map snd (List.filter (fun entry => String.eqb (fst entry) key) entries).

Definition formField {V} (key : string) (values : list V)
  : option (Utils.Field V) :=
  match values with
  | [] => None
  | value :: more =>
      Some (if JS.inherited key
            then Utils.Several
                   (Utils.Inherited key :: map Utils.Value values)
            else match more with
                 | [] => Utils.Single value
                 | _ => Utils.Several (map Utils.Value values)
                 end)
  end.


End Spec.

(** * Properties *)

(** ** Topic selectors *)

Section TopicProperties.
Import JS.

Context {URLPattern : Type}.
Variable URLPattern_new : string -> option string -> result URLPattern.
Variable parse : string -> result (list UriTemplate.Expression).
Variable URLPattern_test : URLPattern -> string -> option string -> bool.

Context {Cache : Type}.
Variable LRU_read : Cache -> string -> option (URLPattern * Cache).
Variable LRU_set : Cache -> string -> URLPattern -> Cache.

Abbreviation createTopicSelector :=
  (Topic.createTopicSelector URLPattern_new parse LRU_read LRU_set).
Abbreviation convertToUrlPattern :=
  (UriTemplate.convertToUrlPattern URLPattern_new parse LRU_read LRU_set).

(** C7, as the code has it: the three branches of [createTopicSelector]
    are chosen by the topic string alone.  ["*"] gives the wildcard and
    a string without a brace the literal, both without touching the
    cache; any other string with a brace goes through
    [convertToUrlPattern], and gives the template selector made of the
    pattern when the conversion returns one, and the conversion's
    exception when it throws. *)
Theorem createTopicSelector_variants
    (cache : Cache) (topic : string)
    (baseURL : option URL) :
  (topic = "*" /\
   createTopicSelector cache topic baseURL =
     (ok {| Topic.selector := Topic.Wildcard; Topic.baseURL := baseURL |},
      cache))
  \/
  (topic <> "*" /\ includes "{" topic = true /\
   ((exists pattern cache',
       convertToUrlPattern cache topic baseURL = (ok pattern, cache') /\
       createTopicSelector cache topic baseURL =
         (ok {| Topic.selector := Topic.Pattern pattern;
                Topic.baseURL := baseURL |}, cache') /\
       Topic.type {| Topic.selector := Topic.Pattern pattern;
                     Topic.baseURL := baseURL |} = "template")
    \/
    (exists e,
       convertToUrlPattern cache topic baseURL = (throw e, cache) /\
       createTopicSelector cache topic baseURL = (throw e, cache))))
  \/
  (topic <> "*" /\ includes "{" topic = false /\
   createTopicSelector cache topic baseURL =
     (ok {| Topic.selector := Topic.Str topic; Topic.baseURL := baseURL |},
      cache)).
Proof.
  unfold Topic.createTopicSelector.
  destruct (String.eqb_spec topic "*") as [->|Hne].
  - left. split; reflexivity.
  - right. destruct (includes "{" topic) eqn:Hb.
    + left. split; [exact Hne|]. split; [reflexivity|].
      destruct (convertToUrlPattern cache topic baseURL) as [[e|p] c] eqn:Hc.
      * right. exists e.
        assert (c = cache) as ->.
        { revert Hc. unfold UriTemplate.convertToUrlPattern, ok, throw.
          destruct (LRU_read cache topic) as [[hit afterRead]|];
            [congruence|].
          destruct (if includes "{" topic then _ else _); [congruence|].
          destruct (URLPattern_new _ _); congruence. }
        split; reflexivity.
      * left. exists p, c. repeat split; reflexivity.
    + right. split; [exact Hne|]. split; reflexivity.
Qed.

(** Whatever the runtime is, an error of the pattern constructor on the
    converted template is the outcome of [createTopicSelector], wrapped
    in the message of the converter. *)
Lemma createTopicSelector_conversion_failure
    (cache : Cache) (topic : string) (baseURL : option URL)
    (expressions : list UriTemplate.Expression) (cause : Exception)
    (Hstar : topic <> "*") (Hbrace : includes "{" topic = true)
    (Hfresh : LRU_read cache topic = None)
    (Hparse : parse topic = ok expressions)
    (Hthrows :
       URLPattern_new
         (fold_left UriTemplate.convertExpression expressions "")
         (origin <$> baseURL) = throw cause) :
  createTopicSelector cache topic baseURL =
    (throw
       (Error ("Failed to convert " +:+ dquote +:+
               fold_left UriTemplate.convertExpression expressions "" +:+
               dquote +:+ " to URLPattern: " +:+ message cause)
          (Some cause)),
     cache).
Proof.
  unfold Topic.createTopicSelector, UriTemplate.convertToUrlPattern.
  destruct (String.eqb_spec topic "*") as [E|_]; [contradiction|].
  rewrite Hbrace, Hfresh, Hparse. cbn. rewrite Hthrows. reflexivity.
Qed.

(** C8: the selector compiled from a literal topic (no brace, not the
    star) exists whatever the base URL and the cache are, is the literal
    selector, and matches the topic itself; the wildcard selector, which
    is what ["*"] compiles to, matches every topic string. *)
Theorem literal_matches_itself_wildcard_matches_all
    (cache : Cache) (t : string) (b : option URL)
    (Hstar : t <> "*") (Hbrace : includes "{" t = false) :
  (exists s,
     fst (createTopicSelector cache t b) = ok s /\
     Topic.type s = "literal" /\
     Topic.test URLPattern_test s [t] = true) /\
  (exists w,
     fst (createTopicSelector cache "*" b) = ok w /\
     Topic.type w = "wildcard" /\
     forall topic : string, Topic.test URLPattern_test w [topic] = true).
Proof.
  split.
  - exists {| Topic.selector := Topic.Str t; Topic.baseURL := b |}.
    unfold Topic.createTopicSelector.
    destruct (String.eqb_spec t "*") as [E|_]; [contradiction|].
    rewrite Hbrace. cbn. rewrite String.eqb_refl. auto.
  - exists {| Topic.selector := Topic.Wildcard; Topic.baseURL := b |}.
    repeat split.
Qed.

End TopicProperties.

(** The steps "Wildcard topic" and "Literal topic" of the repository's
    test of the selectors. *)
Example wildcard_topic_test :
  exists s,
    fst (Topic.createTopicSelector Runtime.URLPattern_new Runtime.parse
           Runtime.LRU_read Runtime.LRU_set [] "*" None) = JS.ok s /\
    Topic.type s = "wildcard" /\
    Topic.test (fun _ _ _ => false) s ["any-topic"] = true.
Proof. eexists. repeat split. Qed.

Example literal_topic_test :
  exists s,
    fst (Topic.createTopicSelector Runtime.URLPattern_new Runtime.parse
           Runtime.LRU_read Runtime.LRU_set []
           "https://example.com/foo" None) = JS.ok s /\
    Topic.type s = "literal" /\
    Topic.test (fun _ _ _ => false) s ["https://example.com/foo"] = true /\
    Topic.test (fun _ _ _ => false) s ["https://example.com/bar"] = false.
Proof. eexists. repeat split. Qed.

(** The step "Template topic with base URL" of the same test, as far as
    the conversion goes: the template [/foo/{id}] becomes the pattern
    string [/foo/:id], resolved against the origin of the base URL. *)
Example template_topic_with_base_test :
  fst (Topic.createTopicSelector Runtime.URLPattern_new Runtime.parse
         Runtime.LRU_read Runtime.LRU_set [] "/foo/{id}"
         (Some {| JS.href := "https://example.com/";
                  JS.origin := "https://example.com" |}))
  = JS.ok {| Topic.selector :=
               Topic.Pattern ("/foo/:id", Some "https://example.com");
             Topic.baseURL :=
               Some {| JS.href := "https://example.com/";
                       JS.origin := "https://example.com" |} |}.
Proof. reflexivity. Qed.

(** C8 on the topic of the repository's own test: the literal
    [https://example.com/foo] is not the star and has no brace. *)
Lemma literal_matches_itself_witness :
  (exists s,
     fst (Topic.createTopicSelector Runtime.URLPattern_new Runtime.parse
            Runtime.LRU_read Runtime.LRU_set []
            "https://example.com/foo" None) = JS.ok s /\
     Topic.type s = "literal" /\
     Topic.test (fun _ _ _ => false) s ["https://example.com/foo"] = true) /\
  (exists w,
     fst (Topic.createTopicSelector Runtime.URLPattern_new Runtime.parse
            Runtime.LRU_read Runtime.LRU_set [] "*" None) = JS.ok w /\
     Topic.type w = "wildcard" /\
     forall topic : string,
       Topic.test (fun _ _ _ => false) w [topic] = true).
Proof.
  apply (literal_matches_itself_wildcard_matches_all
           Runtime.URLPattern_new Runtime.parse (fun _ _ _ => false)
           Runtime.LRU_read Runtime.LRU_set
           [] "https://example.com/foo" None).
  - discriminate.
  - reflexivity.
Defined.

(** C7 fails where the conversion throws: the relative template
    [/foo/{id}] compiled without a base URL yields no selector at all.
    The converter turns the template into the pattern string [/foo/:id],
    and the pattern constructor rejects a relative pattern that comes
    without a base URL. *)
Lemma createTopicSelector_relative_template_throws :
  JS.includes "{" "/foo/{id}" = true /\
  Runtime.parse "/foo/{id}" =
    JS.ok [UriTemplate.Literal "/foo/";
           UriTemplate.VariableExpr
             {| UriTemplate.terms :=
                  [{| UriTemplate.name := "id"; UriTemplate.truncate := 0;
                      UriTemplate.explode := false |}];
                UriTemplate.separator := ",";
                UriTemplate.first := "";
                UriTemplate.allowReserved := false;
                UriTemplate.ifEmpty := "";
                UriTemplate.named := false |}] /\
  exists message cause,
    Topic.createTopicSelector Runtime.URLPattern_new Runtime.parse
      Runtime.LRU_read Runtime.LRU_set []
      "/foo/{id}" None = (JS.throw (JS.Error message (Some cause)), []) /\
    JS.includes "/foo/:id" message = true.
Proof.
  split; [reflexivity|]. split; [reflexivity|].
  eexists _, _. split; [vm_compute; reflexivity|]. vm_compute. reflexivity.
Defined.

(** ** Subscribers: access *)

Section AccessProperties.
Import JS Updates Subscribers Spec.

Context {URLPattern : Type}.
Variable URLPattern_test : URLPattern -> string -> option string -> bool.

(** The loop of [canAccess] over the subscriptions: the test on the
    authorized topics does not depend on the subscription at hand. *)
Lemma canAccess_unguarded (this : Subscriber URLPattern) (update : Update)
    (anonymousAccessEnabled : bool) :
  canAccess URLPattern_test this update anonymousAccessEnabled =
    negb (negb anonymousAccessEnabled &&
          (length (authorizedTopics this) =? 0)%nat) &&
    (existsb (fun s => Subscription_match URLPattern_test s (topicSet update))
             (subscriptions this) &&
     (negb (isPrivate update) ||
      existsb (fun s => Topic.test URLPattern_test s (topicSet update))
              (authorizedTopics this))).
Proof.
  unfold canAccess. fold (topicSet update). fold (isPrivate update).
  destruct (negb anonymousAccessEnabled && _); [reflexivity|].
  cbn [negb andb].
  induction (subscriptions this) as [|s rest IH]; [reflexivity|].
  cbn [existsb].
  destruct (Subscription_match URLPattern_test s (topicSet update)).
  - cbn [negb orb andb].
    destruct (negb (isPrivate update) || _) eqn:E; [reflexivity|].
    rewrite IH. now rewrite andb_false_r.
  - cbn [negb orb]. exact IH.
Qed.

(** C1: [canAccess] returns [false] for every update when anonymous access
    is disabled and the subscriber has no authorized topics; and, that case
    apart, it returns [true] if and only if (1) a selector among the
    subscriptions matches [canonicalTopic, ...alternateTopics] and (2) the
    update is not private or a selector among the authorized topics
    matches the same topics. *)
Theorem canAccess_spec (this : Subscriber URLPattern) (update : Update)
    (anonymousAccessEnabled : bool) :
  (anonymousAccessEnabled = false /\ authorizedTopics this = [] ->
   canAccess URLPattern_test this update anonymousAccessEnabled = false)
  /\
  (anonymousAccessEnabled = true \/ authorizedTopics this <> [] ->
   (canAccess URLPattern_test this update anonymousAccessEnabled = true <->
    subscribed URLPattern_test this update /\
    (isPrivate update = false \/ authorized URLPattern_test this update))).
Proof.
  rewrite canAccess_unguarded. split.
  - intros [-> ->]. reflexivity.
  - intros Hguard.
    assert (negb (negb anonymousAccessEnabled &&
                  (length (authorizedTopics this) =? 0)%nat) = true) as ->.
    { destruct Hguard as [->|Hne]; [reflexivity|].
      destruct (authorizedTopics this); [contradiction|].
      now rewrite andb_false_r. }
    cbn [andb]. rewrite andb_true_iff, orb_true_iff, negb_true_iff.
    rewrite !existsb_exists. unfold subscribed, authorized, Subscription_match.
    reflexivity.
Qed.

End AccessProperties.

(** C1 on the guard: with anonymous access disabled, a subscriber to [*]
    without authorized topics does not get a public update. *)
Lemma canAccess_guard_witness :
  Subscribers.canAccess (fun (p : Empty_set) _ _ => match p with end)
    (Spec.wildcardSubscriber Subscribers.Writable)
    (Spec.publicUpdate "urn:uuid:1" "https://ex/a" "hello")
    false = false.
Proof.
  apply (proj1 (canAccess_spec _ _ _ false)). split; reflexivity.
Defined.

(** ** The in-memory transport *)

Section MemoryProperties.
Import Updates Memory Spec.
Import RingBuffer MemoryTransport.

Lemma Limit_eqb_refl (l : Limit) : Limit_eqb l l = true.
Proof. destruct l; [reflexivity|apply Nat.eqb_refl]. Qed.

(** A new transport stores nothing. *)
Lemma new_buffer (limit : option Limit) : buffer (store (new limit)) = [].
Proof.
  destruct limit as [l|]; [|reflexivity]. unfold new; cbn [store].
  destruct (Limit_truthy l); [|reflexivity].
  unfold set_limit; cbn. destruct (Limit_eqb l (Finite 0)); [reflexivity|].
  now rewrite Limit_eqb_refl.
Qed.

(** While there is room, [push] appends. *)
Lemma push_within {T} (rb : RingBuffer.t T) (value : T) :
  within (RingBuffer.limit rb) (S (length (buffer rb))) ->
  buffer (push rb value) = buffer rb ++ [value] /\
  RingBuffer.limit (push rb value) = RingBuffer.limit rb.
Proof.
  intros Hroom. unfold push; cbn [buffer RingBuffer.limit]. split; [|reflexivity].
  destruct (RingBuffer.limit rb) as [|m]; [reflexivity|].
  cbn in *. destruct (Nat.eqb_spec (length (buffer rb)) m); [lia|reflexivity].
Qed.

Lemma push_all_within {T} (values : list T) (rb : RingBuffer.t T) :
  within (RingBuffer.limit rb) (length (buffer rb) + length values) ->
  buffer (fold_left push values rb) = buffer rb ++ values.
Proof.
  revert rb. induction values as [|v values IH]; intros rb Hroom.
  - cbn. now rewrite app_nil_r.
  - cbn [fold_left].
    assert (within (RingBuffer.limit rb) (S (length (buffer rb)))) as Hone.
    { destruct (RingBuffer.limit rb); cbn in *; [exact I|lia]. }
    destruct (push_within rb v Hone) as [Hb Hl].
    rewrite IH.
    + rewrite Hb, <- app_assoc. reflexivity.
    + rewrite Hl, Hb, length_app. cbn [length] in *.
      destruct (RingBuffer.limit rb); cbn in *; [exact I|lia].
Qed.

(** The assignment [buffer[pointer] = value] of [push] never extends the
    array: in every store that a transport reaches, [pointer] is an index
    of the buffer when the buffer is full. *)
Lemma new_wellFormed (limit : option Limit) : wellFormed (store (new limit)).
Proof.
  destruct limit as [[|[|m]]|]; cbn; try reflexivity.
  unfold wellFormed, set_limit; cbn. rewrite Nat.eqb_refl. cbn. lia.
Qed.

Lemma push_wellFormed {T} (rb : RingBuffer.t T) (value : T) :
  wellFormed rb -> wellFormed (push rb value).
Proof.
  unfold wellFormed, push; cbn [buffer RingBuffer.limit pointer advance].
  destruct (RingBuffer.limit rb) as [|m]; cbn [Limit_eqb advance].
  - intros ->. rewrite length_app. reflexivity.
  - intros (Hm & Hlen & Hp & Hfill).
    pose proof (Nat.mod_upper_bound (pointer rb + 1) m ltac:(lia)) as Hmod.
    destruct (Nat.eqb_spec (length (buffer rb)) m) as [Hfull|Hroom].
    + rewrite length_insert. repeat split; lia.
    + rewrite length_app. cbn [length]. rewrite Hfill by lia.
      repeat split; try lia.
      * rewrite Hfill in Hmod by lia. exact Hmod.
      * intros Hstill. apply Nat.mod_small. lia.
Qed.

Lemma pointer_in_range {T} (rb : RingBuffer.t T) :
  wellFormed rb ->
  Limit_eqb (Finite (length (buffer rb))) (RingBuffer.limit rb) = true ->
  pointer rb < length (buffer rb).
Proof.
  unfold wellFormed. destruct (RingBuffer.limit rb) as [|m]; [discriminate|].
  cbn. intros (_ & _ & Hp & _) Hfull%Nat.eqb_eq. lia.
Qed.

(** Only the events of type "update" reach the store. *)
Lemma store_dispatchEvent (t : MemoryTransport.t) (event : Event) :
  store (dispatchEvent t event) =
    match event with
    | UpdateEvent update => push (store t) update
    | _ => store t
    end.
Proof. destruct event; reflexivity. Qed.

Lemma store_dispatchAll (events : list Event) (t : MemoryTransport.t) :
  store (dispatchAll t events) = fold_left push (updatesOf events) (store t).
Proof.
  unfold dispatchAll. revert t.
  induction events as [|e events IH]; intros t; [reflexivity|].
  cbn [fold_left]. rewrite IH, store_dispatchEvent.
  destruct e; reflexivity.
Qed.

Lemma dispatchAll_wellFormed (limit : option Limit) (events : list Event) :
  wellFormed (store (dispatchAll (new limit) events)).
Proof.
  rewrite store_dispatchAll.
  generalize (new_wellFormed limit). generalize (store (new limit)).
  induction (updatesOf events) as [|u us IH]; intros rb Hrb; [exact Hrb|].
  cbn [fold_left]. apply IH, push_wellFormed, Hrb.
Qed.

Lemma scan_all (lastEventId : string) (updates : list Update) :
  scan true lastEventId updates = updates.
Proof.
  induction updates as [|u updates IH]; [reflexivity|].
  cbn [scan]. destruct (String.eqb _ _); cbn; now rewrite IH.
Qed.

Lemma scan_before (lastEventId : string) (before rest : list Update) :
  lastEventId ∉ map Updates.id before ->
  scan false lastEventId (before ++ rest) = scan false lastEventId rest.
Proof.
  induction before as [|u before IH]; intros Hnot; [reflexivity|].
  cbn [app scan]. cbn [map] in Hnot.
  apply not_elem_of_cons in Hnot as [Hne Hnot].
  destruct (String.eqb_spec (Updates.id u) lastEventId); [congruence|].
  cbn. now apply IH.
Qed.

(** C2, as the code has it: while the transport has not taken more updates
    than the capacity of its store (never the case for the default,
    unbounded store), and the updates published have pairwise distinct ids
    none of which is the sentinel ["earliest"], [eventsAfter] of the id of
    a published update yields exactly the updates published after it, in
    publication order, and [eventsAfter("earliest")] yields every
    published update in publication order.  Events of the other types may
    be dispatched in between. *)
Theorem eventsAfter_replays_suffix
    (limit : option Limit) (events : list Event)
    (before after : list Update) (uk : Update)
    (Hpublished : updatesOf events = before ++ uk :: after)
    (Hdistinct : NoDup (map Updates.id (updatesOf events)))
    (Hsentinel : earliestEventId ∉ map Updates.id (updatesOf events))
    (Hroom : within (RingBuffer.limit (store (new limit)))
                    (length (updatesOf events))) :
  eventsAfter (dispatchAll (new limit) events) (Updates.id uk) = after /\
  eventsAfter (dispatchAll (new limit) events) earliestEventId
    = updatesOf events.
Proof.
  unfold eventsAfter, iterator.
  rewrite store_dispatchAll, push_all_within, new_buffer
    by (rewrite new_buffer; exact Hroom).
  cbn [app]. split.
  - rewrite Hpublished in *.
    assert (String.eqb (Updates.id uk) earliestEventId = false) as ->.
    { apply String.eqb_neq. intros E. apply Hsentinel. rewrite <- E.
      rewrite map_app. apply elem_of_app. right. cbn. apply elem_of_cons.
      now left. }
    rewrite map_app in Hdistinct. cbn [map] in Hdistinct.
    apply NoDup_app in Hdistinct as (_ & Hfresh & _).
    rewrite scan_before.
    + cbn [scan]. rewrite String.eqb_refl. cbn. apply scan_all.
    + intros Hin. apply (Hfresh _ Hin). apply elem_of_cons. now left.
  - rewrite String.eqb_refl. apply scan_all.
Qed.

End MemoryProperties.

(** C2 on the scenario of the specification: the default transport holds
    [u1, u2, u3], and a client resumes from [u1]. *)
Lemma eventsAfter_replays_suffix_witness :
  Memory.MemoryTransport.eventsAfter
    (Memory.MemoryTransport.dispatchAll (Memory.MemoryTransport.new None)
       [Memory.UpdateEvent (Spec.publicUpdate "urn:uuid:1" "https://ex/a" "1");
        Memory.ConnectEvent "urn:uuid:s";
        Memory.UpdateEvent (Spec.publicUpdate "urn:uuid:2" "https://ex/a" "2");
        Memory.UpdateEvent (Spec.publicUpdate "urn:uuid:3" "https://ex/a" "3")])
    "urn:uuid:1"
  = [Spec.publicUpdate "urn:uuid:2" "https://ex/a" "2";
     Spec.publicUpdate "urn:uuid:3" "https://ex/a" "3"].
Proof.
  refine (proj1 (eventsAfter_replays_suffix None _ [] _
                   (Spec.publicUpdate "urn:uuid:1" "https://ex/a" "1")
                   _ _ _ _)).
  - reflexivity.
  - apply (bool_decide_unpack _). vm_compute. exact I.
  - apply (bool_decide_unpack _). vm_compute. exact I.
  - exact I.
Defined.

(** C2 fails on a bounded store: with a capacity of two, the third update
    replaces the first in its slot, so the store reads [u3, u2].
    Replaying from [u1], which the store has dropped, yields nothing
    although [u2] and [u3] were published after it; replaying from [u2]
    yields nothing either; and replaying from the beginning yields [u3]
    before [u2].  On the unbounded store the ids matter: when two updates
    share an id, replaying from that id yields the second of them, which
    is not after itself; and an update whose id is ["earliest"] is
    yielded by the replay from its own id. *)
Lemma eventsAfter_bounded_store_counterexample :
  Memory.MemoryTransport.eventsAfter
    (Memory.MemoryTransport.dispatchAll
       (Memory.MemoryTransport.new (Some (Memory.Finite 2)))
       [Memory.UpdateEvent (Spec.publicUpdate "urn:uuid:1" "https://ex/a" "1");
        Memory.UpdateEvent (Spec.publicUpdate "urn:uuid:2" "https://ex/a" "2");
        Memory.UpdateEvent (Spec.publicUpdate "urn:uuid:3" "https://ex/a" "3")])
    "urn:uuid:1" = []
  /\
  Memory.MemoryTransport.eventsAfter
    (Memory.MemoryTransport.dispatchAll
       (Memory.MemoryTransport.new (Some (Memory.Finite 2)))
       [Memory.UpdateEvent (Spec.publicUpdate "urn:uuid:1" "https://ex/a" "1");
        Memory.UpdateEvent (Spec.publicUpdate "urn:uuid:2" "https://ex/a" "2");
        Memory.UpdateEvent (Spec.publicUpdate "urn:uuid:3" "https://ex/a" "3")])
    "urn:uuid:2" = []
  /\
  Memory.MemoryTransport.eventsAfter
    (Memory.MemoryTransport.dispatchAll
       (Memory.MemoryTransport.new (Some (Memory.Finite 2)))
       [Memory.UpdateEvent (Spec.publicUpdate "urn:uuid:1" "https://ex/a" "1");
        Memory.UpdateEvent (Spec.publicUpdate "urn:uuid:2" "https://ex/a" "2");
        Memory.UpdateEvent (Spec.publicUpdate "urn:uuid:3" "https://ex/a" "3")])
    Memory.earliestEventId
  = [Spec.publicUpdate "urn:uuid:3" "https://ex/a" "3";
     Spec.publicUpdate "urn:uuid:2" "https://ex/a" "2"]
  /\
  Memory.MemoryTransport.eventsAfter
    (Memory.MemoryTransport.dispatchAll (Memory.MemoryTransport.new None)
       [Memory.UpdateEvent (Spec.publicUpdate "urn:uuid:1" "https://ex/a" "1");
        Memory.UpdateEvent (Spec.publicUpdate "urn:uuid:1" "https://ex/a" "2")])
    "urn:uuid:1"
  = [Spec.publicUpdate "urn:uuid:1" "https://ex/a" "2"]
  /\
  Memory.MemoryTransport.eventsAfter
    (Memory.MemoryTransport.dispatchAll (Memory.MemoryTransport.new None)
       [Memory.UpdateEvent (Spec.publicUpdate "earliest" "https://ex/a" "1");
        Memory.UpdateEvent (Spec.publicUpdate "urn:uuid:2" "https://ex/a" "2")])
    "earliest"
  = [Spec.publicUpdate "earliest" "https://ex/a" "1";
     Spec.publicUpdate "urn:uuid:2" "https://ex/a" "2"].
Proof. repeat split. Qed.

Section StoreProperties.
Import Updates Memory Spec.
Import RingBuffer MemoryTransport.

Lemma elem_of_list_insert_inv {T} (items : list T) (i : nat) (x value : T) :
  x ∈ <[i := value]> items -> x = value \/ x ∈ items.
Proof.
  revert i. induction items as [|y items IH]; intros i Hin.
  - now right.
  - destruct i as [|i]; cbn in Hin; apply elem_of_cons in Hin as [->|Hin].
    + now left.
    + right. apply elem_of_cons. now right.
    + right. apply elem_of_cons. now left.
    + destruct (IH _ Hin) as [->|Hx]; [now left|].
      right. apply elem_of_cons. now right.
Qed.

(** Whatever the capacity, [push] brings no item but the pushed one. *)
Lemma elem_of_push {T} (rb : RingBuffer.t T) (x value : T) :
  x ∈ buffer (push rb value) -> x = value \/ x ∈ buffer rb.
Proof.
  unfold push; cbn [buffer].
  destruct (Limit_eqb _ _).
  - apply elem_of_list_insert_inv.
  - intros [Hin|Hin%list_elem_of_singleton]%elem_of_app; auto.
Qed.

Lemma elem_of_push_all {T} (values : list T) (rb : RingBuffer.t T) (x : T) :
  x ∈ buffer (fold_left push values rb) -> x ∈ buffer rb \/ x ∈ values.
Proof.
  revert rb. induction values as [|v values IH]; intros rb Hin.
  - now left.
  - cbn [fold_left] in Hin. destruct (IH _ Hin) as [Hpushed|Hlater].
    + destruct (elem_of_push _ _ _ Hpushed) as [->|Hold]; [|now left].
      right. apply elem_of_cons. now left.
    + right. apply elem_of_cons. now right.
Qed.

Lemma elem_of_scan (next : bool) (lastEventId : string)
    (updates : list Update) (x : Update) :
  x ∈ scan next lastEventId updates -> x ∈ updates.
Proof.
  revert next. induction updates as [|u updates IH]; intros next Hin.
  - exact Hin.
  - cbn [scan] in Hin. apply elem_of_app in Hin as [Hin|Hin].
    + destruct next; [|now apply elem_of_nil in Hin].
      apply list_elem_of_singleton in Hin as ->. apply elem_of_cons. now left.
    + apply elem_of_cons. right. exact (IH _ Hin).
Qed.

Lemma elem_of_updatesOf (events : list Event) (update : Update) :
  update ∈ updatesOf events -> UpdateEvent update ∈ events.
Proof.
  unfold updatesOf. intros (e & He & Hdata)%list_elem_of_omap.
  destruct e; cbn in Hdata; try discriminate.
  now injection Hdata as ->.
Qed.

(** [push] stores the value it is given, whatever the capacity: in a
    store that a transport can be in, the value is in the buffer
    afterwards. *)
Lemma elem_of_push_value {T} (rb : RingBuffer.t T) (value : T) :
  wellFormed rb -> value ∈ buffer (push rb value).
Proof.
  intros Hwf. unfold push; cbn [buffer].
  destruct (Limit_eqb _ _) eqn:Hfull.
  - apply (list_elem_of_lookup_2 _ (pointer rb)).
    apply list_lookup_insert_eq. now apply pointer_in_range.
  - apply elem_of_app. right. now apply list_elem_of_singleton.
Qed.

(** C10: [dispatchEvent] pushes the payload of an event to the store when
    the type of the event is "update", and leaves the store as it is for
    an event of any other type; an event of any type is handed to every
    listener registered for its type; whatever events a new transport has
    been given, of whatever capacity, [eventsAfter] yields nothing but
    payloads of the "update" events among them.  And the payload of an
    update does reach the log: while the store has room it is appended at
    the end of the buffer; on a transport of whatever capacity, the update
    just dispatched is among those that [eventsAfter("earliest")] yields;
    and on the default transport, or on a bounded one that has not been
    given more updates than its capacity, [eventsAfter("earliest")]
    yields exactly the payloads of the "update" events, in the order of
    their dispatch. *)
Theorem dispatchEvent_stores_updates_only
    (t : MemoryTransport.t) (event : Event)
    (limit : option Limit) (events : list Event) (lastEventId : string) :
  (event_type event = "update" ->
   exists update,
     event = UpdateEvent update /\
     store (dispatchEvent t event) = push (store t) update)
  /\
  (event_type event <> "update" -> store (dispatchEvent t event) = store t)
  /\
  (forall listener,
     (event_type event, listener) ∈ EventTarget.listeners (target t) ->
     (listener, event) ∈ EventTarget.calls (target (dispatchEvent t event)))
  /\
  (forall update,
     update ∈ eventsAfter (dispatchAll (new limit) events) lastEventId ->
     UpdateEvent update ∈ events)
  /\
  (forall update,
     within (RingBuffer.limit (store t)) (S (length (buffer (store t)))) ->
     buffer (store (dispatchEvent t (UpdateEvent update)))
       = buffer (store t) ++ [update])
  /\
  (forall update,
     update ∈ eventsAfter
                (dispatchEvent (dispatchAll (new limit) events)
                   (UpdateEvent update))
                earliestEventId)
  /\
  eventsAfter (dispatchAll (new None) events) earliestEventId
    = updatesOf events
  /\
  (within (RingBuffer.limit (store (new limit))) (length (updatesOf events)) ->
   eventsAfter (dispatchAll (new limit) events) earliestEventId
     = updatesOf events).
Proof.
  assert (forall capacity,
            within (RingBuffer.limit (store (new capacity)))
                   (length (updatesOf events)) ->
            eventsAfter (dispatchAll (new capacity) events) earliestEventId
              = updatesOf events) as Hlog.
  { intros capacity Hroom. unfold eventsAfter, iterator.
    rewrite String.eqb_refl, scan_all, store_dispatchAll.
    rewrite push_all_within; rewrite new_buffer; [reflexivity|exact Hroom]. }
  repeat apply conj.
  - intros Htype. destruct event; try discriminate Htype.
    eexists. split; reflexivity.
  - intros Htype. destruct event; try reflexivity. now contradict Htype.
  - intros listener Hin. cbn.
    apply list_elem_of_In, in_or_app. right.
    apply (in_map (fun l => (l, event))).
    unfold EventTarget.listening.
    apply in_map_iff. exists (event_type event, listener).
    split; [reflexivity|]. apply filter_In. split.
    + now apply list_elem_of_In.
    + cbn. apply String.eqb_refl.
  - intros update Hin. apply elem_of_updatesOf.
    unfold eventsAfter, iterator in Hin. apply elem_of_scan in Hin.
    rewrite store_dispatchAll in Hin.
    apply elem_of_push_all in Hin as [Hin|Hin]; [|exact Hin].
    rewrite new_buffer in Hin. now apply elem_of_nil in Hin.
  - intros update Hroom. rewrite store_dispatchEvent.
    now apply push_within.
  - intros update. unfold eventsAfter, iterator.
    rewrite String.eqb_refl, scan_all, store_dispatchEvent.
    apply elem_of_push_value, dispatchAll_wellFormed.
  - now apply (Hlog None).
  - apply Hlog.
Qed.

End StoreProperties.

(** ** Subscribers: dispatch *)

Section DispatchProperties.
Import JS Updates Subscribers Spec.

Context {URLPattern : Type}.
Variable JSON_stringify : Update -> string.


(** C4, as the code has it: when the write of the frame fails, the error
    is logged by the stream and goes no further; [dispatch] leaves the
    subscriber active, with its stream and its subscriptions as they were,
    records the id of the update and dispatches the "message" event. *)
Theorem dispatch_write_failure_is_logged
    (this : Subscriber URLPattern) (update : Update) (log : Log)
    (error : Exception)
    (Hfails : writer_write (EventStream.stream (stream this))
                (encode (jsonFrame JSON_stringify update)) = throw error) :
  active (fst (dispatch JSON_stringify this update log)) = active this /\
  stream (fst (dispatch JSON_stringify this update log)) = stream this /\
  subscriptions (fst (dispatch JSON_stringify this update log))
    = subscriptions this /\
  snd (dispatch JSON_stringify this update log)
    = log ++ ["Error writing to stream"] /\
  lastEventId (fst (dispatch JSON_stringify this update log))
    = Some (Updates.id update) /\
  dispatched (fst (dispatch JSON_stringify this update log))
    = dispatched this ++ [MessageEvent update].
Proof.
  unfold dispatch, EventStream.write. unfold jsonFrame in Hfails.
  cbn [with_lastEventId stream]. rewrite Hfails. cbn. repeat split.
Qed.

(** What does make a subscriber inactive is [close()]: it clears the
    subscriptions and closes a stream that is still writable. *)
Lemma close_deactivates (this : Subscriber URLPattern) :
  active (snd (close this)) = false /\
  subscriptions (snd (close this)) = [] /\
  (state (EventStream.stream (stream this)) = Writable ->
   fst (close this) = ok tt /\
   state (EventStream.stream (stream (snd (close this)))) = Closed).
Proof.
  unfold close. cbn. repeat apply conj.
  - destruct (EventStream.close (stream this)); reflexivity.
  - reflexivity.
  - intros Hwritable. unfold EventStream.close, writer_close.
    rewrite Hwritable. split; reflexivity.
Qed.

End DispatchProperties.

(** C4 on a subscriber whose stream has errored. *)
Lemma dispatch_write_failure_witness :
  Subscribers.active
    (fst (Subscribers.dispatch (fun _ => "{}")
            (Spec.wildcardSubscriber Subscribers.Errored)
            (Spec.publicUpdate "urn:uuid:1" "https://ex/a" "hello") []))
  = true.
Proof.
  refine (proj1 (dispatch_write_failure_is_logged (fun _ => "{}")
                   (Spec.wildcardSubscriber Subscribers.Errored)
                   (Spec.publicUpdate "urn:uuid:1" "https://ex/a" "hello") []
                   (JS.TypeError "The stream is errored.") _)).
  reflexivity.
Defined.


(** C4 fails on a subscriber whose stream has errored: every write is
    rejected, and after [dispatch] the subscriber is still active, its
    stream is still in the errored state, not closed, and its subscription
    is still there; the failure has left one line in the log. *)
Lemma dispatch_write_failure_counterexample :
  (forall JSON_stringify,
     Subscribers.writer_write
       (Subscribers.EventStream.stream
          (Subscribers.stream (Spec.wildcardSubscriber Subscribers.Errored)))
       (Subscribers.encode
          (Spec.jsonFrame JSON_stringify
             (Spec.publicUpdate "urn:uuid:1" "https://ex/a" "hello")))
     = JS.throw (JS.TypeError "The stream is errored."))
  /\
  (forall JSON_stringify,
     let after :=
       Subscribers.dispatch JSON_stringify
         (Spec.wildcardSubscriber Subscribers.Errored)
         (Spec.publicUpdate "urn:uuid:1" "https://ex/a" "hello") [] in
     Subscribers.active (fst after) = true /\
     Subscribers.state
       (Subscribers.EventStream.stream (Subscribers.stream (fst after)))
       = Subscribers.Errored /\
     length (Subscribers.subscriptions (fst after)) = 1 /\
     snd after = ["Error writing to stream"]).
Proof.
  split; intros JSON_stringify; [reflexivity|]. repeat split.
Qed.

(** ** Authorization *)

Section AuthorizationProperties.
Import JS Http Config Authorization Spec.

Context {JsonWebKey MercureTokenPayload : Type}.
Variable jwtVerify :
  string -> JsonWebKey -> list string -> result MercureTokenPayload.
Variable URL_new : string -> result URL.

Abbreviation authorize := (Authorization.authorize jwtVerify URL_new).

(** Without a token in the header or in the query, [authorize] comes to
    the cookie. *)
Lemma authorize_cookie_path (request : Request) (config : Configuration)
    (keyResolver : Configuration -> result JsonWebKey)
    (Hheader : present (Headers.get (headers request) "authorization")
               = false)
    (Hquery : noQueryToken request config) :
  authorize request config keyResolver =
    let token := cookieProperty request config in
    if negb (truthyProperty token) && negb (anonymousAccess config) then
      throw (HttpError 401 "Unauthorized" [("WWW-Authenticate", realm)]
               None)
    else
      let? origin := resolveOrigin URL_new request in
      if present origin &&
         negb (includes (allowedOrigins config) (default "" origin)) &&
         negb (includes (allowedOrigins config) "*")
      then throw (HttpError 403 "Forbidden" [] None)
      else
        match token with
        | Some value =>
            if truthyProperty token then
              let? key := keyResolver config in
              let? payload := parseToken jwtVerify value key in
              ok (Some payload)
            else ok None
        | None => ok None
        end.
Proof.
  unfold Authorization.authorize, cookieProperty. rewrite Hheader.
  destruct Hquery as [->|Hnone]; [reflexivity|].
  destruct (queryParamAuthorization config); [|reflexivity].
  cbv zeta. rewrite Hnone. reflexivity.
Qed.

(** What [authorize] reads under the name of the cookie, by the cookie
    that the request has: a cookie of that name is what it reads; without
    one, it reads nothing unless the name is one that every object
    inherits. *)
Lemma cookieProperty_own (request : Request) (config : Configuration) :
  present (cookieToken request config) = true ->
  truthyProperty (cookieProperty request config) = true.
Proof.
  unfold cookieProperty, cookieToken, property.
  now destruct (getCookies (headers request) !! cookieName config).
Qed.


(** With a bearer token in the Authorization header, or a token in the
    authorization query parameter when that mechanism is on, [authorize]
    is the verification of the token: the origin is not read. *)
Lemma authorize_header_path (request : Request) (config : Configuration)
    (keyResolver : Configuration -> result JsonWebKey)
    (authorization token : string)
    (Hheader : Headers.get (headers request) "authorization"
               = Some authorization)
    (Hpresent : truthy authorization = true)
    (Hbearer : splitSpace2 authorization = ("Bearer", Some token))
    (Htoken : truthy token = true) :
  authorize request config keyResolver =
    let? key := keyResolver config in
    let? payload := parseToken jwtVerify (Own token) key in
    ok (Some payload).
Proof.
  unfold Authorization.authorize. rewrite Hheader.
  cbn [present default from_option Datatypes.id].
  rewrite Hpresent, Hbearer. cbn. rewrite Htoken. reflexivity.
Qed.

Lemma authorize_query_path (request : Request) (config : Configuration)
    (keyResolver : Configuration -> result JsonWebKey) (token : string)
    (Hheader : present (Headers.get (headers request) "authorization")
               = false)
    (Henabled : queryParamAuthorization config = true)
    (Hquery : searchParams_get request "authorization" = Some token)
    (Htoken : truthy token = true) :
  authorize request config keyResolver =
    let? key := keyResolver config in
    let? payload := parseToken jwtVerify (Own token) key in
    ok (Some payload).
Proof.
  unfold Authorization.authorize. rewrite Hheader, Henabled, Hquery.
  cbn [present default from_option Datatypes.id]. rewrite Htoken. reflexivity.
Qed.

(** C5, as the code has it: the origin is checked on the requests that
    come to the cookie, those without a token in the Authorization header
    or in the authorization query parameter, and that are not refused for
    want of a token (the cookie holds one, or anonymous access is on).
    For such a request, if the resolved origin is not empty, is not in the
    list of allowed origins, and the list has no ["*"], [authorize] throws
    the 403 error. *)
Theorem authorize_rejects_foreign_origin
    (request : Request) (config : Configuration)
    (keyResolver : Configuration -> result JsonWebKey) (origin : string)
    (Hheader : present (Headers.get (headers request) "authorization")
               = false)
    (Hquery : noQueryToken request config)
    (Hadmitted : present (cookieToken request config) = true \/
                 anonymousAccess config = true)
    (Horigin : resolveOrigin URL_new request = ok (Some origin))
    (Hnonempty : truthy origin = true)
    (Hforeign : includes (allowedOrigins config) origin = false)
    (Hstar : includes (allowedOrigins config) "*" = false) :
  authorize request config keyResolver
    = throw (HttpError 403 "Forbidden" [] None).
Proof.
  rewrite authorize_cookie_path by assumption. cbv zeta.
  assert (negb (truthyProperty (cookieProperty request config)) &&
          negb (anonymousAccess config) = false) as ->.
  { destruct Hadmitted as [Hcookie | ->]; [|apply andb_false_r].
    now rewrite (cookieProperty_own _ _ Hcookie). }
  rewrite Horigin. cbn. now rewrite Hnonempty, Hforeign, Hstar.
Qed.


(** Under a name that every object inherits, the record of the cookies
    always holds something: a request without a cookie of that name is
    read as one with a token (the inherited function), and a request that
    passes the origin check is refused with the 403 error of a token that
    does not verify, with anonymous access on or off. *)
Lemma authorize_inherited_cookie_name
    (request : Request) (config : Configuration)
    (keyResolver : Configuration -> result JsonWebKey) (key : JsonWebKey)
    (Hheader : present (Headers.get (headers request) "authorization")
               = false)
    (Hquery : noQueryToken request config)
    (Hcookie : cookieToken request config = None)
    (Hname : inherited (cookieName config) = true)
    (Horigin : resolveOrigin URL_new request = ok None)
    (Hkey : keyResolver config = ok key) :
  authorize request config keyResolver =
    throw (HttpError 403 "Forbidden" []
             (Some (Error ("Failed to verify JWT: " +:+ message notCompact)
                      (Some notCompact)))).
Proof.
  rewrite authorize_cookie_path by assumption. cbv zeta.
  unfold cookieProperty, property. unfold cookieToken in Hcookie.
  rewrite Hcookie, Hname, Horigin. cbn. now rewrite Hkey.
Qed.

End AuthorizationProperties.

(** C5 on a request that carries the token in the cookie and comes from an
    origin that is not allowed: the 403 error, whatever the verifier. *)
Lemma authorize_rejects_foreign_origin_witness :
  Authorization.authorize (JsonWebKey := unit) (MercureTokenPayload := string)
    (fun _ _ _ => JS.throw (JS.Error "signature verification failed" None))
    (fun _ => JS.throw (JS.TypeError "Invalid URL"))
    (Spec.hubRequest
       [("Cookie", "mercureAuthorization=token");
        ("Origin", "https://evil.example")] [])
    (Spec.hubConfig false false)
    (fun _ => JS.ok tt)
  = JS.throw (JS.HttpError 403 "Forbidden" [] None).
Proof.
  apply (authorize_rejects_foreign_origin _ _ _ _ _ "https://evil.example").
  - reflexivity.
  - left. reflexivity.
  - left. vm_compute. reflexivity.
  - vm_compute. reflexivity.
  - reflexivity.
  - reflexivity.
  - reflexivity.
Defined.

(** C5 fails for the two other mechanisms.  A request from an origin that
    is not allowed (the allowed list is [https://app.example], without
    ["*"]) that carries its token in the Authorization header, or in the
    authorization query parameter when that mechanism is on, is given the
    payload of the token as soon as the token verifies: [authorize]
    returns before it reads the origin. *)
Lemma authorize_origin_counterexample :
  (forall URL_new,
     Authorization.resolveOrigin URL_new
       (Spec.hubRequest
          [("Authorization", "Bearer good");
           ("Origin", "https://evil.example")] [])
     = JS.ok (Some "https://evil.example"))
  /\
  Authorization.includes
    (Config.allowedOrigins (Spec.hubConfig true false))
    "https://evil.example" = false
  /\
  Authorization.includes
    (Config.allowedOrigins (Spec.hubConfig true false)) "*" = false
  /\
  (forall (JsonWebKey MercureTokenPayload : Type)
          (jwtVerify : string -> JsonWebKey -> list string ->
                       JS.result MercureTokenPayload)
          URL_new key payload,
     jwtVerify "good" key ["mercure"] = JS.ok payload ->
     Authorization.authorize jwtVerify URL_new
       (Spec.hubRequest
          [("Authorization", "Bearer good");
           ("Origin", "https://evil.example")] [])
       (Spec.hubConfig true false) (fun _ => JS.ok key)
     = JS.ok (Some payload)
     /\
     Authorization.authorize jwtVerify URL_new
       (Spec.hubRequest
          [("Origin", "https://evil.example")] [("authorization", "good")])
       (Spec.hubConfig true false) (fun _ => JS.ok key)
     = JS.ok (Some payload)).
Proof.
  repeat apply conj; try reflexivity.
  intros K P jwtVerify URL_new key payload Hverifies.
  split.
  - rewrite (authorize_header_path _ _ _ _ _ "Bearer good" "good")
      by reflexivity.
    cbn. unfold Authorization.parseToken, Authorization.verifyJwt.
    now rewrite Hverifies.
  - rewrite (authorize_query_path _ _ _ _ _ "good") by reflexivity.
    cbn. unfold Authorization.parseToken, Authorization.verifyJwt.
    now rewrite Hverifies.
Qed.



(** A hub whose cookie is named [toString]: a request without any cookie
    is read as one with a token, with anonymous access on, and is refused
    with the 403 error of a token that does not verify. *)
Example authorize_cookie_named_toString :
  Spec.cookieToken (Spec.hubRequest [] [])
    {| Config.queryParamAuthorization := false;
       Config.cookieName := "toString";
       Config.anonymousAccess := true;
       Config.allowedOrigins := ["https://app.example"];
       Config.metrics := false |} = None /\
  Authorization.authorize Spec.verifyGood Spec.invalidURL
    (Spec.hubRequest [] [])
    {| Config.queryParamAuthorization := false;
       Config.cookieName := "toString";
       Config.anonymousAccess := true;
       Config.allowedOrigins := ["https://app.example"];
       Config.metrics := false |}
    (fun _ => JS.ok tt)
  = JS.throw
      (JS.HttpError 403 "Forbidden" []
         (Some (JS.Error
                  ("Failed to verify JWT: " +:+
                   JS.message Authorization.notCompact)
                  (Some Authorization.notCompact)))).
Proof. split; reflexivity. Qed.

(** ** The request handler *)

Section HandlerProperties.
Import JS Http Config Handler Spec.

Context {URLPattern Hub : Type}.
Variable URLPattern_exec :
  URLPattern -> string -> option (list (string * string)).
Variable resolveAcceptedMediaTypes : Request -> list string.


Lemma withGenericHeaders_status (response : Response) :
  status (withGenericHeaders response) = status response.
Proof. reflexivity. Qed.


(** A request that no route matches is answered with the 404 error, and a
    request on a route that has no handler for its method with the 405
    error; both responses carry the security headers. *)
Lemma createHandler_not_found (hub : Hub) (config : Configuration)
    (request : Request) :
  status (createHandler URLPattern_exec resolveAcceptedMediaTypes
            [] hub config request) = 404.
Proof. reflexivity. Qed.

Lemma createHandler_method_not_allowed
    (pattern : URLPattern) (handlers : list (string * HandlerFn))
    (rest : Routes) (hub : Hub) (config : Configuration) (request : Request)
    (groups : list (string * string))
    (Hmatch : URLPattern_exec pattern (url request) = Some groups)
    (Hverb : handlers_get handlers (toLowerCase (method request)) = None) :
  status (createHandler URLPattern_exec resolveAcceptedMediaTypes
            ((pattern, handlers) :: rest) hub config request) = 405.
Proof.
  unfold createHandler. cbn [Router_match]. rewrite Hmatch, Hverb.
  reflexivity.
Qed.

End HandlerProperties.

(** ** More on the in-memory transport *)

Section RingBufferProperties.
Import Updates Memory Spec.
Import RingBuffer MemoryTransport.

Lemma push_limit {T} (rb : RingBuffer.t T) (value : T) :
  RingBuffer.limit (push rb value) = RingBuffer.limit rb.
Proof. reflexivity. Qed.

Lemma push_all_limit {T} (values : list T) (rb : RingBuffer.t T) :
  RingBuffer.limit (fold_left push values rb) = RingBuffer.limit rb.
Proof.
  revert rb. induction values as [|v values IH]; intros rb; [reflexivity|].
  cbn [fold_left]. now rewrite IH.
Qed.

Lemma new_limit_bounded (n : nat) :
  store (new (Some (Finite (S n)))) =
    {| buffer := []; RingBuffer.limit := Finite (S n); pointer := 0 |}.
Proof.
  unfold new, set_limit; cbn. now rewrite Nat.eqb_refl.
Qed.

Lemma length_scan (next : bool) (lastEventId : string)
    (updates : list Update) :
  length (scan next lastEventId updates) <= length updates.
Proof.
  revert next. induction updates as [|u updates IH]; intros next; [easy|].
  cbn [scan]. rewrite length_app.
  specialize (IH (if String.eqb (id u) lastEventId then true else next)).
  destruct next; cbn [length] in *; lia.
Qed.

(** A store made with a positive limit never holds more updates than the
    limit, whatever events the transport is given, and a replay never
    yields more updates than the limit. *)
Theorem bounded_store_within_limit
    (n : nat) (events : list Event) (lastEventId : string) :
  length (buffer (store (dispatchAll (new (Some (Finite (S n)))) events)))
    <= S n
  /\
  length (eventsAfter (dispatchAll (new (Some (Finite (S n)))) events)
            lastEventId) <= S n.
Proof.
  pose proof (dispatchAll_wellFormed (Some (Finite (S n))) events) as Hwf.
  unfold wellFormed in Hwf.
  assert (RingBuffer.limit
            (store (dispatchAll (new (Some (Finite (S n)))) events))
          = Finite (S n)) as Hlimit.
  { rewrite store_dispatchAll, push_all_limit. reflexivity. }
  rewrite Hlimit in Hwf. destruct Hwf as (_ & Hlen & _).
  split; [exact Hlen|].
  unfold eventsAfter, iterator.
  etransitivity; [apply length_scan|exact Hlen].
Qed.

Lemma tail_drop {T} (k : nat) (items : list T) :
  tail (drop k items) = drop (S k) items.
Proof.
  revert k. induction items as [|x items IH]; intros k.
  - now rewrite !drop_nil.
  - destruct k as [|k]; [reflexivity|]. cbn [drop]. apply IH.
Qed.

Lemma window_snoc {T} (m : nat) (items : list T) (value : T) :
  0 < m -> m <= length items ->
  window m (items ++ [value]) = tail (window m items) ++ [value].
Proof.
  intros Hm Hlen. unfold window. rewrite length_app. cbn [length].
  replace (length items + 1 - m) with (S (length items - m)) by lia.
  rewrite drop_app_le by lia. now rewrite tail_drop.
Qed.

Lemma window_short {T} (m : nat) (items : list T) :
  length items <= m -> window m items = items.
Proof.
  intros Hlen. unfold window.
  replace (length items - m) with 0 by lia. reflexivity.
Qed.

Lemma length_window {T} (m : nat) (items : list T) :
  length (window m items) = Nat.min m (length items).
Proof. unfold window. rewrite length_drop. lia. Qed.

Lemma length_fromPointer {T} (rb : RingBuffer.t T) :
  length (fromPointer rb) = length (buffer rb).
Proof.
  unfold fromPointer. rewrite length_app, length_drop, length_take. lia.
Qed.

(** One [push] on a bounded buffer moves the window by one item. *)
Lemma push_fromPointer {T} (m : nat) (rb : RingBuffer.t T)
    (items : list T) (value : T) :
  RingBuffer.limit rb = Finite m ->
  wellFormed rb ->
  fromPointer rb = window m items ->
  fromPointer (push rb value) = window m (items ++ [value]).
Proof.
  intros Hlimit Hwf Hread.
  pose proof (length_fromPointer rb) as Hlength.
  rewrite Hread, length_window in Hlength.
  unfold wellFormed in Hwf. rewrite Hlimit in Hwf.
  destruct Hwf as (Hm & Hlen & Hp & Hfill).
  unfold fromPointer, push in *. cbn [buffer pointer]. rewrite Hlimit.
  cbn [Limit_eqb advance].
  destruct (Nat.eqb_spec (length (buffer rb)) m) as [Hfull|Hroom].
  - (* full: the slot at the pointer holds the oldest item *)
    rewrite window_snoc by lia. rewrite <- Hread.
    rewrite insert_take_drop by lia.
    assert (length (take (pointer rb) (buffer rb)) = pointer rb) as Htake.
    { rewrite length_take. lia. }
    destruct (drop (pointer rb) (buffer rb)) as [|oldest later] eqn:Hdrop.
    { apply (f_equal length) in Hdrop. rewrite length_drop in Hdrop.
      cbn in Hdrop. lia. }
    assert (drop (S (pointer rb)) (buffer rb) = later) as ->.
    { rewrite <- (Nat.add_1_l (pointer rb)), Nat.add_comm.
      rewrite <- drop_drop, Hdrop. reflexivity. }
    cbn [tail app].
    destruct (Nat.eq_dec (pointer rb + 1) m) as [Hwrap|Hnext].
    + rewrite Hwrap, Nat.Div0.mod_same. cbn [drop take].
      assert (later = []) as ->.
      { apply (f_equal length) in Hdrop. rewrite length_drop in Hdrop.
        cbn in Hdrop. destruct later; [reflexivity|cbn in Hdrop; lia]. }
      now rewrite app_nil_r.
    + rewrite Nat.mod_small by lia.
      rewrite drop_app_ge by lia. rewrite Htake.
      replace (pointer rb + 1 - pointer rb) with 1 by lia. cbn [drop].
      rewrite take_app_ge by lia. rewrite Htake.
      replace (pointer rb + 1 - pointer rb) with 1 by lia. cbn [take].
      now rewrite <- app_assoc.
  - (* not full: the buffer is the list of the items so far *)
    rewrite Hfill in * by lia.
    rewrite drop_all, take_ge in Hread by lia. cbn [app] in Hread.
    assert (length items < m) as Hitems by lia.
    rewrite window_short in Hread by lia. subst items.
    rewrite window_short by (rewrite length_app; cbn; lia).
    destruct (Nat.eq_dec (length (buffer rb) + 1) m) as [Hwrap|Hnext].
    + rewrite Hwrap, Nat.Div0.mod_same. cbn [drop take].
      now rewrite app_nil_r.
    + rewrite Nat.mod_small by lia.
      rewrite drop_ge, take_ge by (rewrite length_app; cbn; lia).
      reflexivity.
Qed.

Lemma push_all_fromPointer {T} (m : nat) (values : list T)
    (rb : RingBuffer.t T) (items : list T) :
  RingBuffer.limit rb = Finite m ->
  wellFormed rb ->
  fromPointer rb = window m items ->
  fromPointer (fold_left push values rb) = window m (items ++ values).
Proof.
  revert rb items. induction values as [|v values IH];
    intros rb items Hlimit Hwf Hread.
  - cbn. now rewrite app_nil_r.
  - cbn [fold_left].
    replace (items ++ v :: values) with ((items ++ [v]) ++ values)
      by now rewrite <- app_assoc.
    apply IH.
    + now rewrite push_limit.
    + now apply push_wellFormed.
    + now apply push_fromPointer.
Qed.

(** A store made with a positive limit holds exactly the last [limit]
    updates published: read from the pointer around, the buffer is the
    list of these updates in publication order, so the buffer as the
    iterator reads it, from index 0, is a rotation of that list. *)
Theorem bounded_store_holds_last_updates (n : nat) (events : list Event) :
  fromPointer (store (dispatchAll (new (Some (Finite (S n)))) events))
    = window (S n) (updatesOf events)
  /\
  eventsAfter (dispatchAll (new (Some (Finite (S n)))) events)
    earliestEventId
    ≡ₚ window (S n) (updatesOf events).
Proof.
  assert (fromPointer
            (store (dispatchAll (new (Some (Finite (S n)))) events))
          = window (S n) (updatesOf events)) as Hread.
  { rewrite store_dispatchAll, new_limit_bounded.
    apply (push_all_fromPointer (S n) _ _ []).
    - reflexivity.
    - unfold wellFormed. cbn. lia.
    - reflexivity. }
  split; [exact Hread|].
  unfold eventsAfter, iterator. rewrite String.eqb_refl, scan_all.
  rewrite <- Hread. unfold fromPointer.
  rewrite Permutation_app_comm, take_drop. reflexivity.
Qed.

(** Whatever the store holds and whatever id is asked for, a replay
    yields an end of the store as it is: the updates it yields are
    consecutive, in the order of the store, and run to its last item. *)
Theorem eventsAfter_is_suffix (t : MemoryTransport.t) (lastEventId : string) :
  exists skipped,
    iterator (store t) = skipped ++ eventsAfter t lastEventId.
Proof.
  unfold eventsAfter. generalize (String.eqb lastEventId earliestEventId).
  induction (iterator (store t)) as [|u updates IH]; intros next.
  - exists []. reflexivity.
  - cbn [scan].
    destruct (IH (if String.eqb (id u) lastEventId then true else next))
      as [skipped Hskipped].
    destruct next.
    + exists []. cbn. f_equal.
      destruct (String.eqb (id u) lastEventId); now rewrite scan_all.
    + exists (u :: skipped). cbn. now f_equal.
Qed.

(** An id that is not the sentinel and that no stored update carries
    yields nothing: the replay ends at once, it does not start from the
    beginning. *)
Theorem eventsAfter_unknown_id (t : MemoryTransport.t) (lastEventId : string)
    (Hsentinel : lastEventId <> earliestEventId)
    (Hunknown : lastEventId ∉ map id (iterator (store t))) :
  eventsAfter t lastEventId = [].
Proof.
  unfold eventsAfter.
  apply String.eqb_neq in Hsentinel. rewrite Hsentinel.
  rewrite <- (app_nil_r (iterator (store t))).
  now rewrite scan_before.
Qed.

(** The replay starts after the first stored update that carries the id:
    updates stored before it are skipped, and every update stored after
    it is yielded, another update with the same id included. *)
Theorem eventsAfter_first_occurrence
    (t : MemoryTransport.t) (before after : list Update) (u : Update)
    (Hsentinel : id u <> earliestEventId)
    (Hstore : iterator (store t) = before ++ u :: after)
    (Hfirst : id u ∉ map id before) :
  eventsAfter t (id u) = after.
Proof.
  unfold eventsAfter. apply String.eqb_neq in Hsentinel.
  rewrite Hsentinel, Hstore, scan_before by assumption.
  cbn [scan]. rewrite String.eqb_refl. cbn. apply scan_all.
Qed.

End RingBufferProperties.

Lemma eventsAfter_unknown_id_witness :
  Memory.MemoryTransport.eventsAfter
    (Memory.MemoryTransport.dispatchAll (Memory.MemoryTransport.new None)
       [Memory.UpdateEvent (Spec.publicUpdate "urn:uuid:1" "https://ex/a" "1");
        Memory.UpdateEvent (Spec.publicUpdate "urn:uuid:2" "https://ex/a" "2")])
    "urn:uuid:9" = [].
Proof.
  apply eventsAfter_unknown_id.
  - discriminate.
  - apply (bool_decide_unpack _). vm_compute. exact I.
Defined.

Lemma eventsAfter_first_occurrence_witness :
  Memory.MemoryTransport.eventsAfter
    (Memory.MemoryTransport.dispatchAll
       (Memory.MemoryTransport.new (Some (Memory.Finite 2)))
       [Memory.UpdateEvent (Spec.publicUpdate "urn:uuid:1" "https://ex/a" "1");
        Memory.UpdateEvent (Spec.publicUpdate "urn:uuid:2" "https://ex/a" "2");
        Memory.UpdateEvent (Spec.publicUpdate "urn:uuid:3" "https://ex/a" "3")])
    "urn:uuid:3"
  = [Spec.publicUpdate "urn:uuid:2" "https://ex/a" "2"].
Proof.
  apply (eventsAfter_first_occurrence _ []
           [Spec.publicUpdate "urn:uuid:2" "https://ex/a" "2"]
           (Spec.publicUpdate "urn:uuid:3" "https://ex/a" "3")).
  - discriminate.
  - reflexivity.
  - apply (bool_decide_unpack _). vm_compute. exact I.
Defined.

(** ** More on subscribers *)

Section SubscriberLifecycle.
Import JS Updates Subscribers Heartbeats Spec.

Context {URLPattern : Type}.

(** [close()] deactivates the subscriber whatever becomes of the stream:
    it is inactive, without a heartbeat timer and without subscriptions,
    it has dispatched the "close" event, and its resume cursor is as it
    was.  A stream that was writable is closed, with what was written;
    otherwise closing the stream throws, [close] throws the same, and the
    stream is left as it was.  So a second [close] always throws, and
    leaves the subscriber inactive. *)
Theorem close_always_deactivates (this : Subscriber URLPattern) :
  active (snd (close this)) = false /\
  heartbeatTimer (snd (close this)) = None /\
  subscriptions (snd (close this)) = [] /\
  lastEventId (snd (close this)) = lastEventId this /\
  dispatched (snd (close this)) = dispatched this ++ [CloseEvent] /\
  (writable this ->
   fst (close this) = ok tt /\
   state (EventStream.stream (stream (snd (close this)))) = Closed /\
   sent (snd (close this)) = sent this) /\
  (~ writable this ->
   (exists error, fst (close this) = throw error) /\
   stream (snd (close this)) = stream this) /\
  (exists error, fst (close (snd (close this))) = throw error) /\
  active (snd (close (snd (close this)))) = false.
Proof.
  unfold writable, sent, close, EventStream.close, writer_close. cbn.
  destruct (state (EventStream.stream (stream this))) eqn:Hstate; cbn;
    rewrite ?Hstate; cbn; repeat apply conj; try reflexivity;
    try (intros; congruence); try (intros; split; eauto; fail);
    try (intros; repeat split; fail); eauto.
Qed.

(** A heartbeat that fires on a subscriber without a timer, as after
    [close()], does nothing: no write, no event, no log. *)
Theorem sendHeartbeat_after_close (this : Subscriber URLPattern) (log : Log) :
  sendHeartbeat (snd (close this)) log = (snd (close this), log) /\
  sendHeartbeat (disableHeartbeats this) log = (disableHeartbeats this, log).
Proof.
  split; unfold sendHeartbeat, armed, close; cbn;
    destruct (EventStream.close (stream this)); reflexivity.
Qed.

(** Once heartbeats are enabled (the timer is a positive number), a
    heartbeat on a writable stream sends one chunk, the comment line of
    the heart sign and a blank line, and dispatches the "heartbeat"
    event; it moves neither the resume cursor nor the subscriptions, and
    leaves the subscriber as active as it was. *)
Theorem sendHeartbeat_writes_comment
    (this : Subscriber URLPattern) (timer : nat) (log : Log)
    (Hwritable : writable this) :
  let beating := enableHeartbeats this (S timer) in
  sent (fst (sendHeartbeat beating log)) = sent this ++ [encode heartbeat] /\
  encode heartbeat =
    encode ":" ++ [Byte.xf0; Byte.x9f; Byte.x92; Byte.x93] ++
    encode (newline +:+ newline) /\
  dispatched (fst (sendHeartbeat beating log))
    = dispatched this ++ [HeartbeatEvent] /\
  lastEventId (fst (sendHeartbeat beating log)) = lastEventId this /\
  subscriptions (fst (sendHeartbeat beating log)) = subscriptions this /\
  active (fst (sendHeartbeat beating log)) = active this /\
  snd (sendHeartbeat beating log) = log.
Proof.
  unfold writable in Hwritable.
  unfold sendHeartbeat, enableHeartbeats, sent, EventStream.write,
    writer_write.
  assert (Heartbeats.armed
            (with_heartbeatTimer
               (if Heartbeats.armed this then disableHeartbeats this
                else this) (Some (S timer))) = true) as -> by reflexivity.
  cbn [negb].
  destruct (Heartbeats.armed this); cbn; rewrite Hwritable; cbn;
    repeat split.
Qed.

End SubscriberLifecycle.

Lemma sendHeartbeat_writes_comment_witness :
  Spec.sent
    (fst (Heartbeats.sendHeartbeat
            (Heartbeats.enableHeartbeats
               (Spec.wildcardSubscriber Subscribers.Writable) 1) []))
  = [Subscribers.encode Heartbeats.heartbeat].
Proof.
  refine (proj1 (sendHeartbeat_writes_comment
                   (Spec.wildcardSubscriber Subscribers.Writable) 0 [] _)).
  reflexivity.
Defined.

(** ** The helpers of the subscription handler *)

Section ReplayProperties.
Import JS Updates Subscribers SubscriptionHandler Spec.

Context {URLPattern : Type}.
Variable URLPattern_test : URLPattern -> string -> option string -> bool.
Variable JSON_stringify : Update -> string.

(** [canAccess] reads the subscriptions and the authorized topics only. *)
Lemma canAccess_same_selectors (a b : Subscriber URLPattern)
    (update : Update) (anonymousAccessEnabled : bool) :
  subscriptions a = subscriptions b ->
  authorizedTopics a = authorizedTopics b ->
  canAccess URLPattern_test a update anonymousAccessEnabled =
  canAccess URLPattern_test b update anonymousAccessEnabled.
Proof.
  intros Hs Ha. rewrite !canAccess_unguarded, Hs, Ha. reflexivity.
Qed.

Lemma dispatch_writable (this : Subscriber URLPattern) (update : Update)
    (log : Log) :
  writable this ->
  writable (fst (dispatch JSON_stringify this update log)) /\
  sent (fst (dispatch JSON_stringify this update log))
    = sent this ++ [encode (jsonFrame JSON_stringify update)] /\
  lastEventId (fst (dispatch JSON_stringify this update log))
    = Some (Updates.id update) /\
  snd (dispatch JSON_stringify this update log) = log /\
  subscriptions (fst (dispatch JSON_stringify this update log))
    = subscriptions this /\
  authorizedTopics (fst (dispatch JSON_stringify this update log))
    = authorizedTopics this.
Proof.
  unfold writable, sent, dispatch, EventStream.write, writer_write, jsonFrame.
  cbn [with_lastEventId stream]. intros ->. cbn. repeat split.
Qed.

(** [sendUpdate] over a list of updates, as [reconcile] runs it. *)
Lemma sendUpdate_all (updates : list Update) (this : Subscriber URLPattern)
    (anonymousAccess : option bool) (log : Log) :
  writable this ->
  let after :=
    fold_left
      (fun state update =>
         sendUpdate URLPattern_test JSON_stringify (fst state) update
           anonymousAccess (snd state))
      updates (this, log) in
  let received := accessible URLPattern_test this anonymousAccess updates in
  writable (fst after) /\
  sent (fst after)
    = sent this ++
      map (fun update => encode (jsonFrame JSON_stringify update)) received /\
  lastEventId (fst after)
    = match last received with
      | Some update => Some (Updates.id update)
      | None => lastEventId this
      end /\
  snd after = log.
Proof.
  revert this log. induction updates as [|u updates IH]; intros this log Hw.
  - cbn. rewrite app_nil_r. repeat split. exact Hw.
  - cbn zeta. cbn [fold_left fst snd]. unfold accessible. cbn [List.filter].
    assert (sendUpdate URLPattern_test JSON_stringify this u anonymousAccess
              log
            = if canAccess URLPattern_test this u
                   (default false anonymousAccess)
              then dispatch JSON_stringify this u log
              else (this, log)) as ->.
    { unfold sendUpdate. now destruct (canAccess _ _ _ _). }
    destruct (canAccess URLPattern_test this u (default false anonymousAccess))
      eqn:Hcan.
    + destruct (dispatch_writable this u log Hw)
        as (Hw' & Hsent & Hlast & Hlog & Hsubs & Hauth).
      destruct (dispatch JSON_stringify this u log) as [next log'].
      cbn [fst snd] in Hw', Hsent, Hlast, Hlog, Hsubs, Hauth.
      specialize (IH next log' Hw').
      cbn zeta in IH.
      destruct IH as (IHw & IHsent & IHlast & IHlog).
      assert (accessible URLPattern_test next anonymousAccess updates
              = accessible URLPattern_test this anonymousAccess updates)
        as Hsame.
      { unfold accessible. apply filter_ext. intros u'.
        now apply canAccess_same_selectors. }
      rewrite Hsame in IHsent, IHlast. fold (accessible URLPattern_test).
      unfold accessible in *.
      repeat split.
      * exact IHw.
      * rewrite IHsent, Hsent. cbn [map]. now rewrite <- app_assoc.
      * rewrite IHlast, Hlast.
        destruct (List.filter _ updates) as [|x rest]; [reflexivity|].
        change (last (u :: x :: rest)) with (last (x :: rest)).
        destruct (last (x :: rest)) eqn:Hend; [reflexivity|].
        now apply last_None in Hend.
      * now rewrite IHlog.
    + specialize (IH this log Hw). cbn zeta in IH. exact IH.
Qed.

(** An update that the subscriber may not access goes nowhere: the
    subscriber and the log are as they were.  So a private update is
    never written to a subscriber none of whose authorized selectors
    matches its topics, whatever it subscribed to. *)
Theorem sendUpdate_never_leaks
    (this : Subscriber URLPattern) (update : Update)
    (anonymousAccess : option bool) (log : Log)
    (Hprivate : isPrivate update = true)
    (Hforeign :
       forall selector,
         In selector (authorizedTopics this) ->
         Topic.test URLPattern_test selector (topicSet update) = false) :
  sendUpdate URLPattern_test JSON_stringify this update anonymousAccess log
    = (this, log).
Proof.
  unfold sendUpdate. rewrite canAccess_unguarded, Hprivate. cbn [negb orb].
  assert (existsb
            (fun s => Topic.test URLPattern_test s (topicSet update))
            (authorizedTopics this) = false) as ->.
  { apply not_true_is_false. intros (s & Hin & Htest)%existsb_exists.
    rewrite (Hforeign s Hin) in Htest. discriminate. }
  now rewrite !andb_false_r.
Qed.

(** The replay on connection: on a stream that takes writes, [reconcile]
    sends the subscriber one frame for each update that the hub yields
    after [lastEventId] and that the subscriber may access, in the order
    of the hub, and nothing else; the resume cursor ends on the last
    update sent, or stays where it was when none was sent. *)
Theorem reconcile_sends_accessible_updates
    (hub : Hub.t) (this : Subscriber URLPattern)
    (lastEventId : option string) (anonymousAccess : option bool)
    (log : Log) (Hwritable : writable this) :
  let received :=
    accessible URLPattern_test this anonymousAccess
      (Hub.eventsAfter hub lastEventId) in
  let after :=
    reconcile URLPattern_test JSON_stringify hub this lastEventId
      anonymousAccess log in
  sent (fst after)
    = sent this ++
      map (fun update => encode (jsonFrame JSON_stringify update)) received /\
  Subscribers.lastEventId (fst after)
    = match last received with
      | Some update => Some (Updates.id update)
      | None => Subscribers.lastEventId this
      end /\
  snd after = log /\
  writable (fst after).
Proof.
  cbn zeta. unfold reconcile.
  assert (Hub.eventsAfter hub
            (Some (default Memory.earliestEventId lastEventId))
          = Hub.eventsAfter hub lastEventId) as ->.
  { destruct lastEventId; reflexivity. }
  destruct (sendUpdate_all (Hub.eventsAfter hub lastEventId) this
              anonymousAccess log Hwritable) as (Hw & Hsent & Hlast & Hlog).
  repeat split; assumption.
Qed.

End ReplayProperties.

(** A private update on [https://ex/a] is not sent to a subscriber to
    every topic whose token authorizes [https://ex/b] only. *)
Lemma sendUpdate_never_leaks_witness :
  SubscriptionHandler.sendUpdate
    (fun (p : Empty_set) _ _ => match p with end) (fun _ => "{}")
    (Spec.authorizedSubscriber Subscribers.Writable ["https://ex/b"])
    (Spec.privateUpdate "urn:uuid:1" "https://ex/a" "secret")
    (Some true) []
  = (Spec.authorizedSubscriber Subscribers.Writable ["https://ex/b"], []).
Proof.
  apply sendUpdate_never_leaks; [reflexivity|].
  intros selector [<-|[]]. reflexivity.
Defined.

(** Reconnecting after [urn:uuid:1]: of the two later updates the private
    one on [https://ex/a] is passed over and the public one is sent. *)
Lemma reconcile_sends_accessible_updates_witness :
  Spec.sent
    (fst (SubscriptionHandler.reconcile
            (fun (p : Empty_set) _ _ => match p with end) Updates.id
            (Spec.hubAfter
               [Memory.UpdateEvent
                  (Spec.publicUpdate "urn:uuid:1" "https://ex/a" "1");
                Memory.UpdateEvent
                  (Spec.privateUpdate "urn:uuid:2" "https://ex/a" "2");
                Memory.UpdateEvent
                  (Spec.publicUpdate "urn:uuid:3" "https://ex/a" "3")])
            (Spec.authorizedSubscriber Subscribers.Writable ["https://ex/b"])
            (Some "urn:uuid:1") None []))
  = [Subscribers.encode (Spec.jsonFrame Updates.id
       (Spec.publicUpdate "urn:uuid:3" "https://ex/a" "3"))].
Proof.
  refine (proj1 (reconcile_sends_accessible_updates
                   (fun (p : Empty_set) _ _ => match p with end) Updates.id
                   _ _ (Some "urn:uuid:1") None [] _)).
  reflexivity.
Defined.

Section ClaimProperties.
Import JS Updates Subscribers SubscriptionHandler Spec.

Context {URLPattern : Type}.
Variable URLPattern_test : URLPattern -> string -> option string -> bool.
Variable parseMercureClaim :
  string -> (Exception * string) + (list string * option string).

(** A literal selector matches a list of topics when its string is one of
    them. *)
Lemma literal_test (topic : string) (baseURL : option URL)
    (topics : list string) :
  Topic.test URLPattern_test
    {| Topic.selector := Topic.Str topic; Topic.baseURL := baseURL |} topics
    = true
  <-> In topic topics.
Proof.
  unfold Topic.test. cbn [Topic.selector]. rewrite existsb_exists. split.
  - intros (t & Hin & Heq). apply String.eqb_eq in Heq. now subst.
  - intros Hin. exists topic. split; [exact Hin|apply String.eqb_refl].
Qed.

(** The selectors that [checkClaims] builds from the [subscribe] strings
    of a token are all literals, [*] and URI templates included: they
    match a list of topics exactly when one of the strings of the claim is
    among the topics, character for character, and the payload of the
    claim is passed on. *)
Theorem checkClaims_selectors_are_literal
    (claims : MercureTokenPayload) (baseUrl : URL)
    (subscribe : list string) (payload : option string)
    (Hpresent : Authorization.present (mercure claims) = true)
    (Hparse :
       parseMercureClaim (default "" (mercure claims))
         = inr (subscribe, payload)) :
  exists topics : list (Topic.TopicSelector URLPattern),
    checkClaims parseMercureClaim (Some claims) baseUrl
      = ok (topics, payload) /\
    (forall selector, In selector topics ->
       Topic.type selector = "literal") /\
    (forall topicsOfUpdate,
       existsb (fun selector =>
                  Topic.test URLPattern_test selector topicsOfUpdate)
         topics = true
       <-> exists topic, In topic subscribe /\ In topic topicsOfUpdate).
Proof.
  unfold checkClaims. rewrite Hpresent, Hparse. cbn [negb].
  eexists. split; [reflexivity|]. split.
  - intros selector (topic & <- & _)%in_map_iff. reflexivity.
  - intros topicsOfUpdate. rewrite existsb_exists. split.
    + intros (selector & (topic & <- & Hin)%in_map_iff & Htest).
      exists topic. split; [exact Hin|]. now apply literal_test in Htest.
    + intros (topic & Hin & Hamong).
      exists {| Topic.selector := Topic.Str topic;
                Topic.baseURL := Some baseUrl |}.
      split; [|now apply literal_test].
      apply in_map_iff. now exists topic.
Qed.

(** [checkClaims] fails with 403 responses only: whatever the token holds,
    it returns the selectors or throws an [HttpError] of status 403
    without headers (its cause, when the claim did not parse, is what the
    parser threw); and without a token it returns no selector. *)
Theorem checkClaims_fails_with_403
    (claims : option MercureTokenPayload) (baseUrl : URL) :
  ((exists topics payload,
      checkClaims (URLPattern := URLPattern) parseMercureClaim claims baseUrl
        = ok (topics, payload)) \/
   (exists message cause,
      checkClaims (URLPattern := URLPattern) parseMercureClaim claims baseUrl
        = throw (HttpError 403 message [] cause))) /\
  checkClaims (URLPattern := URLPattern) parseMercureClaim None baseUrl
    = ok ([], None).
Proof.
  split; [|reflexivity].
  destruct claims as [claims|]; [|left; now exists [], None].
  unfold checkClaims.
  destruct (Authorization.present (mercure claims)); cbn [negb].
  - destruct (parseMercureClaim _) as [[cause text]|[subscribe payload]].
    + right. eexists _, _. reflexivity.
    + left. eexists _, _. reflexivity.
  - right. eexists _, _. reflexivity.
Qed.

End ClaimProperties.

(** A token whose claim lists [*] authorizes the topic [*] only: the
    selector does not match the topic [https://ex/a]. *)
Lemma checkClaims_selectors_are_literal_witness :
  exists topics : list (Topic.TopicSelector Empty_set),
    SubscriptionHandler.checkClaims (fun _ => inr (["*"], None))
      (Some {| SubscriptionHandler.mercure := Some "{}" |})
      {| JS.href := "https://ex/"; JS.origin := "https://ex" |}
      = JS.ok (topics, None) /\
    existsb (fun selector =>
               Topic.test (fun (p : Empty_set) _ _ => match p with end)
                 selector ["https://ex/a"]) topics = false.
Proof.
  destruct (checkClaims_selectors_are_literal
              (fun (p : Empty_set) _ _ => match p with end)
              (fun _ => inr (["*"], None))
              {| SubscriptionHandler.mercure := Some "{}" |}
              {| JS.href := "https://ex/"; JS.origin := "https://ex" |}
              ["*"] None eq_refl eq_refl) as (topics & Hok & _ & Hmatch).
  exists topics. split; [exact Hok|].
  apply not_true_is_false. intros Htrue.
  apply Hmatch in Htrue. destruct Htrue as (topic & [<-|[]] & [Heq|[]]).
  discriminate.
Defined.

(** ** The conversion cache and selectors as strings *)

Section ConversionProperties.
Import JS UriTemplate.

Context {URLPattern Cache : Type}.
Variable LRU_read : Cache -> string -> option (URLPattern * Cache).
Variable LRU_set : Cache -> string -> URLPattern -> Cache.

(** The cache is keyed by the template alone.  Whenever it holds a
    pattern for a template, the conversion returns that pattern and leaves
    the cache as the read leaves it, whatever the base URL of the caller
    is and without consulting the parser or the pattern constructor; and
    [createTopicSelector] makes of it the template selector that carries
    the base URL of the caller, not the one that the pattern was built
    against. *)
Theorem convertToUrlPattern_cached_for_every_base
    (URLPattern_new : string -> option string -> result URLPattern)
    (parse : string -> result (list Expression))
    (cache afterRead : Cache) (template : string)
    (baseURL : option URL) (pattern : URLPattern)
    (Hcached : LRU_read cache template = Some (pattern, afterRead)) :
  convertToUrlPattern URLPattern_new parse LRU_read LRU_set cache template
    baseURL = (ok pattern, afterRead) /\
  (template <> "*" -> includes "{" template = true ->
   Topic.createTopicSelector URLPattern_new parse LRU_read LRU_set cache
     template baseURL
   = (ok {| Topic.selector := Topic.Pattern pattern;
            Topic.baseURL := baseURL |}, afterRead)).
Proof.
  assert (convertToUrlPattern URLPattern_new parse LRU_read LRU_set cache
            template baseURL = (ok pattern, afterRead)) as Hhit.
  { unfold convertToUrlPattern. now rewrite Hcached. }
  split; [exact Hhit|].
  intros Hstar Hbrace. unfold Topic.createTopicSelector.
  apply String.eqb_neq in Hstar. now rewrite Hstar, Hbrace, Hhit.
Qed.

End ConversionProperties.

(** The relative template [/foo/{id}], cached with the pattern that was
    built against [https://example.com], converts without a base URL, to
    that pattern (from an empty cache the conversion throws). *)
Lemma convertToUrlPattern_cached_for_every_base_witness :
  UriTemplate.convertToUrlPattern Runtime.URLPattern_new Runtime.parse
    Runtime.LRU_read Runtime.LRU_set
    [("/foo/{id}", ("/foo/:id", Some "https://example.com"))]
    "/foo/{id}" None
  = (JS.ok ("/foo/:id", Some "https://example.com"),
     [("/foo/{id}", ("/foo/:id", Some "https://example.com"))]).
Proof.
  apply (convertToUrlPattern_cached_for_every_base
           Runtime.LRU_read Runtime.LRU_set
           Runtime.URLPattern_new Runtime.parse).
  reflexivity.
Defined.

Lemma append_nil_r (s : string) : s +:+ "" = s.
Proof.
  induction s as [|c s IH]; [reflexivity|].
  change (String c (s +:+ "") = String c s). now rewrite IH.
Qed.

Lemma append_assoc (s t u : string) : (s +:+ t) +:+ u = s +:+ t +:+ u.
Proof.
  induction s as [|c s IH]; [reflexivity|].
  change (String c ((s +:+ t) +:+ u) = String c (s +:+ t +:+ u)).
  now rewrite IH.
Qed.

Section SelectorStrings.
Import JS TopicStrings.

Context {URLPattern : Type}.
Variable URLPattern_new : string -> option string -> result URLPattern.
Variable parse : string -> result (list UriTemplate.Expression).
Variable components : URLPattern -> Components.

Context {Cache : Type}.
Variable LRU_read : Cache -> string -> option (URLPattern * Cache).
Variable LRU_set : Cache -> string -> URLPattern -> Cache.

(** A topic without a brace survives the round trip: it compiles, for
    every cache and base URL and without touching the cache, to a selector
    that carries the base URL and whose [toString()] is the topic again,
    the star included. *)
Theorem toString_createTopicSelector
    (cache : Cache) (topic : string)
    (baseURL : option URL) (Hplain : includes "{" topic = false) :
  exists s,
    Topic.createTopicSelector URLPattern_new parse LRU_read LRU_set cache
      topic baseURL
      = (ok s, cache) /\
    toString components s = topic /\
    Topic.baseURL s = baseURL.
Proof.
  unfold Topic.createTopicSelector. rewrite Hplain.
  destruct (String.eqb topic "*") eqn:Hstar.
  - apply String.eqb_eq in Hstar. subst. eexists. now repeat split.
  - eexists. now repeat split.
Qed.

(** [urlPatternToString] leaves out a search and a hash that are empty or
    the catch-all [*]: patterns that agree on protocol, host name, port and
    path and have such a search and hash compare equal. *)
Theorem compareUrlPattern_ignores_catch_all (a b : Components)
    (Hprotocol : protocol a = protocol b)
    (Hhostname : hostname a = hostname b)
    (Hport : port a = port b)
    (Hpathname : pathname a = pathname b)
    (Hsearch_a : search a = "" \/ search a = "*")
    (Hsearch_b : search b = "" \/ search b = "*")
    (Hhash_a : hash a = "" \/ hash a = "*")
    (Hhash_b : hash b = "" \/ hash b = "*") :
  compareUrlPattern a b = true /\
  urlPatternToString a
    = protocol a +:+ "://" +:+ hostname a +:+
      (if truthy (port a) then ":" +:+ port a else "") +:+ pathname a.
Proof.
  unfold compareUrlPattern, urlPatternToString.
  rewrite <- Hprotocol, <- Hhostname, <- Hport, <- Hpathname.
  assert (forall s, s = "" \/ s = "*" ->
            truthy s && negb (String.eqb s "*") = false) as Hdrop.
  { intros s [->| ->]; reflexivity. }
  rewrite !Hdrop by assumption.
  split; [apply String.eqb_refl|].
  change ("" +:+ "") with "". now rewrite append_nil_r, append_assoc.
Qed.

End SelectorStrings.

(** The literal topic of the repository's test, as in its step "Literal
    topic": [selector.toString()] is the topic. *)
Lemma toString_createTopicSelector_witness :
  exists s,
    Topic.createTopicSelector Runtime.URLPattern_new Runtime.parse
      Runtime.LRU_read Runtime.LRU_set []
      "https://example.com/foo" None = (JS.ok s, []) /\
    TopicStrings.toString
      (fun _ : Runtime.URLPattern =>
         {| TopicStrings.protocol := ""; TopicStrings.hostname := "";
            TopicStrings.port := ""; TopicStrings.pathname := "";
            TopicStrings.search := ""; TopicStrings.hash := "" |}) s
      = "https://example.com/foo" /\
    Topic.baseURL s = None.
Proof.
  apply toString_createTopicSelector. reflexivity.
Defined.

(** The pattern [https://example.com/foo/:id] with the catch-all search
    and hash that the runtime gives it, and the same pattern with an empty
    search and hash. *)
Lemma compareUrlPattern_ignores_catch_all_witness :
  TopicStrings.compareUrlPattern
    {| TopicStrings.protocol := "https";
       TopicStrings.hostname := "example.com";
       TopicStrings.port := ""; TopicStrings.pathname := "/foo/:id";
       TopicStrings.search := "*"; TopicStrings.hash := "*" |}
    {| TopicStrings.protocol := "https";
       TopicStrings.hostname := "example.com";
       TopicStrings.port := ""; TopicStrings.pathname := "/foo/:id";
       TopicStrings.search := ""; TopicStrings.hash := "" |} = true /\
  TopicStrings.urlPatternToString
    {| TopicStrings.protocol := "https";
       TopicStrings.hostname := "example.com";
       TopicStrings.port := ""; TopicStrings.pathname := "/foo/:id";
       TopicStrings.search := "*"; TopicStrings.hash := "*" |}
  = "https://example.com/foo/:id".
Proof.
  apply (compareUrlPattern_ignores_catch_all
           {| TopicStrings.protocol := "https";
              TopicStrings.hostname := "example.com";
              TopicStrings.port := ""; TopicStrings.pathname := "/foo/:id";
              TopicStrings.search := "*"; TopicStrings.hash := "*" |}
           {| TopicStrings.protocol := "https";
              TopicStrings.hostname := "example.com";
              TopicStrings.port := ""; TopicStrings.pathname := "/foo/:id";
              TopicStrings.search := ""; TopicStrings.hash := "" |});
    try reflexivity; cbn; auto.
Defined.

(** ** More on authorization *)

Section AuthorizationSoundness.
Import JS Http Config Authorization Spec.

Context {JsonWebKey MercureTokenPayload : Type}.
Variable jwtVerify :
  string -> JsonWebKey -> list string -> result MercureTokenPayload.
Variable URL_new : string -> result URL.

(** A payload that [parseToken] returns was verified, from a string; a
    token that fails the verification is refused with the 403 error
    whose message is the bare "Forbidden" and whose cause is the error of
    [verifyJwt], itself caused by what the verification threw. *)
Lemma parseToken_inv (token : Property) (key : JsonWebKey)
    (r : result MercureTokenPayload) :
  parseToken jwtVerify token key = r ->
  match r with
  | inr payload =>
      exists value,
        token = Own value /\ jwtVerify value key ["mercure"] = ok payload
  | inl e =>
      exists thrown,
        e = HttpError 403 "Forbidden" []
              (Some (Error ("Failed to verify JWT: " +:+ message thrown)
                       (Some thrown))) /\
        ((exists value,
            token = Own value /\
            jwtVerify value key ["mercure"] = throw thrown) \/
         ((exists name, token = FromPrototype name) /\
          thrown = notCompact))
  end.
Proof.
  unfold parseToken, verifyJwt. intros <-. destruct token as [value|name].
  - destruct (jwtVerify value key ["mercure"]) as [thrown|payload] eqn:Hv.
    + exists thrown. split; [reflexivity|]. left. now exists value.
    + now exists value.
  - cbn. exists notCompact. split; [reflexivity|]. right.
    split; [now exists name|reflexivity].
Qed.

(** The verification that closes each of the three mechanisms. *)
Lemma verified_inv (token : Property) (config : Configuration)
    (keyResolver : Configuration -> result JsonWebKey)
    (r : result (option MercureTokenPayload)) :
  (let? key := keyResolver config in
   let? payload := parseToken jwtVerify token key in
   ok (Some payload)) = r ->
  match r with
  | inr None => False
  | inr (Some payload) =>
      exists value key,
        token = Own value /\ keyResolver config = ok key /\
        jwtVerify value key ["mercure"] = ok payload
  | inl e =>
      keyResolver config = throw e \/
      exists thrown,
        e = HttpError 403 "Forbidden" []
              (Some (Error ("Failed to verify JWT: " +:+ message thrown)
                       (Some thrown))) /\
        ((exists value key, jwtVerify value key ["mercure"] = throw thrown)
         \/ thrown = notCompact)
  end.
Proof.
  intros <-. unfold bind.
  destruct (keyResolver config) as [e|key]; [now left|].
  pose proof (parseToken_inv token key _ eq_refl) as Hparse.
  destruct (parseToken jwtVerify token key) as [e|payload].
  - right. destruct Hparse as (thrown & -> & Hthrown). exists thrown.
    split; [reflexivity|].
    destruct Hthrown as [(value & _ & Hv)|[_ ->]]; [left|now right].
    now exists value, key.
  - destruct Hparse as (value & -> & Hv). now exists value, key.
Qed.

(** Soundness of [authorize]: a payload that it returns is the result of
    [jwtVerify] on a non-empty token that the request presented, under the
    key of the resolver and with the [mercure] claim required; and the
    token is the bearer token of the Authorization header, or the
    authorization query parameter with that mechanism enabled, or the
    configured cookie. *)
Theorem authorize_payload_is_verified
    (request : Request) (config : Configuration)
    (keyResolver : Configuration -> result JsonWebKey)
    (payload : MercureTokenPayload)
    (Hauthorized :
       Authorization.authorize jwtVerify URL_new request config keyResolver
         = ok (Some payload)) :
  exists token key,
    truthy token = true /\
    keyResolver config = ok key /\
    jwtVerify token key ["mercure"] = ok payload /\
    ((exists authorization,
        Headers.get (headers request) "authorization" = Some authorization /\
        splitSpace2 authorization = ("Bearer", Some token)) \/
     (queryParamAuthorization config = true /\
      searchParams_get request "authorization" = Some token) \/
     cookieToken request config = Some token).
Proof.
  unfold Authorization.authorize in Hauthorized.
  destruct (present (Headers.get (headers request) "authorization"))
    eqn:Hheader.
  - destruct (Headers.get (headers request) "authorization")
      as [authorization|] eqn:Hget; [|discriminate].
    cbn [default from_option Datatypes.id] in Hauthorized.
    destruct (splitSpace2 authorization) as [type token] eqn:Hsplit.
    destruct (String.eqb type "Bearer") eqn:Htype; [|discriminate].
    destruct token as [token|]; [|discriminate].
    destruct (truthy token) eqn:Htoken; [|cbn in Hauthorized;
      rewrite Htoken in Hauthorized; discriminate].
    cbn in Hauthorized. rewrite Htoken in Hauthorized.
    apply String.eqb_eq in Htype. subst type.
    destruct (verified_inv _ config keyResolver _ Hauthorized)
      as (value & key & [= <-] & Hkey & Hverified).
    exists token, key. repeat split; try assumption.
    left. now exists authorization.
  - set (queryToken := if queryParamAuthorization config
                       then searchParams_get request "authorization"
                       else None) in Hauthorized.
    cbv zeta in Hauthorized.
    destruct (present queryToken) eqn:Hquery.
    + destruct queryToken as [token|] eqn:Hvalue; [|discriminate].
      cbn [default from_option Datatypes.id present] in Hauthorized, Hquery.
      destruct (verified_inv _ config keyResolver _ Hauthorized)
        as (value & key & [= <-] & Hkey & Hverified).
      exists token, key. repeat split; try assumption.
      right. left. unfold queryToken in Hvalue.
      destruct (queryParamAuthorization config); [now split|discriminate].
    + destruct (negb (truthyProperty _) && negb (anonymousAccess config));
        [discriminate|].
      unfold bind in Hauthorized at 1.
      destruct (resolveOrigin URL_new request) as [e|origin]; [discriminate|].
      destruct (present origin && _ && _); [discriminate|].
      unfold property in Hauthorized. fold (cookieToken request config)
        in Hauthorized.
      destruct (cookieToken request config) as [cookie|] eqn:Hcookie.
      * cbn [truthyProperty] in Hauthorized.
        destruct (truthy cookie) eqn:Htruthy; [|discriminate].
        destruct (verified_inv _ config keyResolver _ Hauthorized)
          as (value & key & [= <-] & Hkey & Hverified).
        exists cookie, key. repeat split; try assumption.
        right. now right.
      * destruct (inherited (cookieName config)); [|discriminate].
        cbn [truthyProperty] in Hauthorized.
        now destruct (verified_inv _ config keyResolver _ Hauthorized)
          as (value & key & [=] & _).
Qed.

(** What [authorize] throws is one of: the 401 error with the
    [invalid_token] challenge; the 401 error with the plain challenge;
    the 403 error of the origin check; the 403 error of a token that
    does not verify, whose message and headers say nothing of the reason
    and whose cause is the error of [verifyJwt], caused in turn by what
    the verification threw; what the key resolver threw; or what
    [new URL] threw on the Referer header. *)
Theorem authorize_failures
    (request : Request) (config : Configuration)
    (keyResolver : Configuration -> result JsonWebKey) (e : Exception)
    (Hthrown :
       Authorization.authorize jwtVerify URL_new request config keyResolver
         = throw e) :
  e = HttpError 401 "Unauthorized" [("WWW-Authenticate", invalid_token)]
        None \/
  e = HttpError 401 "Unauthorized" [("WWW-Authenticate", realm)] None \/
  e = HttpError 403 "Forbidden" [] None \/
  (exists thrown,
     e = HttpError 403 "Forbidden" []
           (Some (Error ("Failed to verify JWT: " +:+ message thrown)
                    (Some thrown))) /\
     ((exists token key, jwtVerify token key ["mercure"] = throw thrown) \/
      thrown = notCompact)) \/
  keyResolver config = throw e \/
  (exists referer, URL_new referer = throw e).
Proof.
  assert (forall token,
            (let? key := keyResolver config in
             let? payload := parseToken jwtVerify token key in
             ok (Some payload)) = throw e ->
            (exists thrown,
               e = HttpError 403 "Forbidden" []
                     (Some (Error ("Failed to verify JWT: " +:+
                                   message thrown) (Some thrown))) /\
               ((exists token key,
                   jwtVerify token key ["mercure"] = throw thrown) \/
                thrown = notCompact)) \/
            keyResolver config = throw e) as Hverification.
  { intros token Hparse.
    destruct (verified_inv token config keyResolver _ Hparse)
      as [Hkey|Hrefused]; [now right|now left]. }
  unfold Authorization.authorize in Hthrown.
  destruct (present (Headers.get (headers request) "authorization"))
    eqn:Hheader.
  - destruct (splitSpace2 _) as [type token].
    destruct (negb (String.eqb type "Bearer") || negb (present token))
      eqn:Hbearer.
    + left. unfold throw in Hthrown. congruence.
    + destruct (Hverification _ Hthrown); auto 6.
  - set (queryToken := if queryParamAuthorization config
                       then searchParams_get request "authorization"
                       else None) in Hthrown.
    cbv zeta in Hthrown.
    destruct (present queryToken) eqn:Hquery.
    + destruct (Hverification _ Hthrown); auto 6.
    + destruct (negb (truthyProperty _) && negb (anonymousAccess config)).
      { right. left. unfold throw in Hthrown. congruence. }
      unfold bind in Hthrown at 1.
      destruct (resolveOrigin URL_new request) as [e'|origin] eqn:Horigin.
      { unfold throw in Hthrown. injection Hthrown as ->.
        do 5 right. unfold resolveOrigin in Horigin.
        destruct (present (Headers.get (headers request) "origin"));
          [discriminate|].
        destruct (match Headers.get (headers request) "referer" with
                  | Some v => Some v
                  | None => Headers.get (headers request) "referrer"
                  end) as [referer|]; [|discriminate].
        destruct (truthy referer); [|discriminate].
        exists referer. unfold bind in Horigin.
        destruct (URL_new referer); [|discriminate].
        unfold throw. congruence. }
      destruct (present origin && _ && _).
      { do 2 right. left. unfold throw in Hthrown. congruence. }
      destruct (property _ _) as [value|]; [|discriminate].
      destruct (truthyProperty (Some value)); [|discriminate].
      destruct (Hverification _ Hthrown); auto 6.
Qed.

(** The Authorization header takes precedence: when a request presents
    one, [authorize] depends on that header and on the resolved key alone.
    The query parameter, the cookie, the Origin and Referer headers and
    the rest of the configuration (anonymous access, allowed origins) are
    not consulted. *)
Theorem authorize_header_takes_precedence
    (request request' : Request) (config config' : Configuration)
    (keyResolver : Configuration -> result JsonWebKey)
    (Hpresent :
       present (Headers.get (headers request) "authorization") = true)
    (Hheader :
       Headers.get (headers request') "authorization"
         = Headers.get (headers request) "authorization")
    (Hkey : keyResolver config' = keyResolver config) :
  Authorization.authorize jwtVerify URL_new request' config' keyResolver
    = Authorization.authorize jwtVerify URL_new request config keyResolver.
Proof.
  unfold Authorization.authorize. rewrite Hheader, Hpresent, Hkey.
  reflexivity.
Qed.

End AuthorizationSoundness.

(** The payload returned for [Authorization: Bearer good] is the one that
    the verification gave for the token [good]. *)
Lemma authorize_payload_is_verified_witness :
  exists token key,
    JS.truthy token = true /\
    JS.ok tt = JS.ok key /\
    Spec.verifyGood token key ["mercure"] = JS.ok "payload" /\
    ((exists authorization,
        Http.Headers.get
          (Http.headers
             (Spec.hubRequest [("Authorization", "Bearer good")] []))
          "authorization" = Some authorization /\
        JS.splitSpace2 authorization = ("Bearer", Some token)) \/
     (Config.queryParamAuthorization (Spec.hubConfig false false) = true /\
      Http.searchParams_get
        (Spec.hubRequest [("Authorization", "Bearer good")] [])
        "authorization" = Some token) \/
     Spec.cookieToken
       (Spec.hubRequest [("Authorization", "Bearer good")] [])
       (Spec.hubConfig false false) = Some token).
Proof.
  apply (authorize_payload_is_verified Spec.verifyGood Spec.invalidURL
           (Spec.hubRequest [("Authorization", "Bearer good")] [])
           (Spec.hubConfig false false) (fun _ => JS.ok tt) "payload").
  reflexivity.
Defined.

(** A bearer token that does not verify: the 403 error says "Forbidden"
    and no more, and carries the error of [verifyJwt] as its cause. *)
Lemma authorize_failures_witness :
  Authorization.authorize Spec.verifyGood Spec.invalidURL
    (Spec.hubRequest [("Authorization", "Bearer bad")] [])
    (Spec.hubConfig false true) (fun _ => JS.ok tt)
  = JS.throw
      (JS.HttpError 403 "Forbidden" []
         (Some (JS.Error
                  "Failed to verify JWT: signature verification failed"
                  (Some (JS.Error "signature verification failed" None)))))
  /\
  exists thrown,
    (JS.Error "Failed to verify JWT: signature verification failed"
       (Some (JS.Error "signature verification failed" None))
     = JS.Error ("Failed to verify JWT: " +:+ JS.message thrown) (Some thrown))
    /\
    exists token key, Spec.verifyGood token key ["mercure"] = JS.throw thrown.
Proof.
  split; [reflexivity|].
  destruct (authorize_failures Spec.verifyGood Spec.invalidURL
              (Spec.hubRequest [("Authorization", "Bearer bad")] [])
              (Spec.hubConfig false true) (fun _ => JS.ok tt) _ eq_refl)
    as [Hno|[Hno|[Hno|[(thrown & Hthrown & Hverify)|[Hno|(r & Hno)]]]]];
    try discriminate Hno.
  exists thrown. injection Hthrown as _ Hcause.
  split; [now rewrite <- Hcause|].
  destruct Hverify as [Hverify|Hcompact]; [exact Hverify|].
  rewrite <- Hcause in Hcompact. discriminate Hcompact.
Defined.

(** With [Authorization: Bearer good], a foreign Origin header, a token in
    the query and another configuration change nothing. *)
Lemma authorize_header_takes_precedence_witness :
  Authorization.authorize Spec.verifyGood Spec.invalidURL
    (Spec.hubRequest
       [("Authorization", "Bearer good");
        ("Origin", "https://evil.example")] [("authorization", "bad")])
    (Spec.hubConfig true false) (fun _ => JS.ok tt)
  = Authorization.authorize Spec.verifyGood Spec.invalidURL
      (Spec.hubRequest [("Authorization", "Bearer good")] [])
      (Spec.hubConfig false true) (fun _ => JS.ok tt).
Proof.
  apply authorize_header_takes_precedence; reflexivity.
Defined.

(** ** More on the request handler *)

Section ResponseProperties.
Import JS Http Config Handler Spec.

Context {URLPattern Hub : Type}.
Variable URLPattern_exec :
  URLPattern -> string -> option (list (string * string)).
Variable resolveAcceptedMediaTypes : Request -> list string.

Lemma withGenericHeaders_other (response : Response) (name : string) :
  ~ In (toLowerCase name) genericHeaders ->
  Headers.get (response_headers (withGenericHeaders response)) name
    = Headers.get (response_headers response) name.
Proof.
  intros Hname.
  unfold withGenericHeaders, Headers.get, Headers.set.
  cbn [response_headers]. cbv zeta.
  change (toLowerCase "server") with "server".
  change (toLowerCase "x-content-type-options") with "x-content-type-options".
  change (toLowerCase "x-frame-options") with "x-frame-options".
  change (toLowerCase "x-xss-protection") with "x-xss-protection".
  change (toLowerCase "referrer-policy") with "referrer-policy".
  rewrite !lookup_insert_ne; [reflexivity|..];
    intros Heq; apply Hname; rewrite <- Heq; cbn; auto 6.
Qed.


(** The headers of the response for an error thrown with one header. *)
Lemma handleError_single_header
    (request : Request) (code : nat) (text name value : string)
    (cause : option Exception) :
  toLowerCase name <> "content-type" ->
  response_headers
    (handleError resolveAcceptedMediaTypes request
       (HttpError code text [(name, value)] cause))
  = <[toLowerCase name := value]>
      (<["content-type" :=
           if existsb (String.eqb "application/json")
                (resolveAcceptedMediaTypes request)
           then "application/json; charset=utf-8"
           else "text/plain; charset=utf-8"]> ∅).
Proof.
  intros Hct.
  assert (String.eqb "content-type" name = false) as Hkey.
  { apply String.eqb_neq. intros <-. now apply Hct. }
  unfold handleError. cbn [response_headers responsable error_headers].
  unfold spread. cbn [fold_left assign fst snd]. rewrite Hkey.
  unfold Headers.new. cbn [fold_left fst snd].
  unfold Headers.append at 2.
  change (toLowerCase "content-type") with "content-type".
  rewrite lookup_empty. unfold Headers.append.
  rewrite lookup_insert_ne by congruence. now rewrite lookup_empty.
Qed.

(** The header of an [HttpError] reaches the client: for an error thrown
    with one header (the [WWW-Authenticate] of the 401 errors, the [allow]
    of the 405 error, the [accept] of the 415 error), the response that
    the request handler makes of it has the status of the error and that
    header with its value, next to the content type of the rendering. *)
Theorem error_response_carries_header
    (request : Request) (code : nat) (text name value : string)
    (cause : option Exception)
    (Hname :
       ~ In (toLowerCase name) ("content-type" :: genericHeaders)) :
  let response :=
    withGenericHeaders
      (handleError resolveAcceptedMediaTypes request
         (HttpError code text [(name, value)] cause)) in
  status response = code /\
  Headers.get (response_headers response) name = Some value /\
  Headers.get (response_headers response) "content-type"
    = Some (if existsb (String.eqb "application/json")
                 (resolveAcceptedMediaTypes request)
            then "application/json; charset=utf-8"
            else "text/plain; charset=utf-8").
Proof.
  cbv zeta. split; [reflexivity|].
  assert (toLowerCase name <> "content-type") as Hct.
  { intros Heq. apply Hname. rewrite Heq. now left. }
  rewrite !withGenericHeaders_other.
  - rewrite handleError_single_header by exact Hct.
    unfold Headers.get.
    change (toLowerCase "content-type") with "content-type".
    rewrite lookup_insert_eq, lookup_insert_ne by congruence.
    now rewrite lookup_insert_eq.
  - cbn. intuition discriminate.
  - intros Hin. apply Hname. now right.
Qed.

(** A response for an error that is no [HttpError] and no validation
    error tells the client nothing about it: the status is 500 and the
    body is the fixed text, as plain text or as JSON, whatever the message
    and the cause of the error.  The error is kept as the cause of the
    [HttpError] that is rendered, and the rendering does not read it. *)
Theorem internal_error_is_not_disclosed
    (request : Request) (text : string) (cause : option Exception) :
  let acceptsJSON :=
    existsb (String.eqb "application/json")
      (resolveAcceptedMediaTypes request) in
  let shown :=
    if acceptsJSON then Json 500 "Internal Server Error" None
    else Text "Internal Server Error" in
  handleError resolveAcceptedMediaTypes request (Error text cause)
    = handleError resolveAcceptedMediaTypes request
        (HttpError 500 "Internal Server Error" [] None) /\
  handleError resolveAcceptedMediaTypes request (TypeError text)
    = handleError resolveAcceptedMediaTypes request
        (HttpError 500 "Internal Server Error" [] None) /\
  status (handleError resolveAcceptedMediaTypes request (Error text cause))
    = 500 /\
  body (handleError resolveAcceptedMediaTypes request (Error text cause))
    = shown.
Proof.
  cbv zeta. split; [reflexivity|]. split; [reflexivity|].
  split; [reflexivity|].
  unfold handleError. cbn [body responsable].
  now destruct (existsb _ _).
Qed.

(** The first route whose pattern matches the URL decides, whatever is
    registered after it: routes before it that do not match are passed
    over, and routes after it are never consulted, also when the matching
    route has no handler for the method of the request. *)
Theorem Router_match_first_route
    (before rest : Routes) (pattern : URLPattern)
    (handlers : list (string * @HandlerFn Hub))
    (request : Request) (groups : list (string * string))
    (Hbefore :
       forall route, In route before ->
         URLPattern_exec (fst route) (url request) = None)
    (Hmatch : URLPattern_exec pattern (url request) = Some groups) :
  Router_match URLPattern_exec (before ++ (pattern, handlers) :: rest)
    request
  = Router_match URLPattern_exec [(pattern, handlers)] request.
Proof.
  induction before as [|[p hs] before IH].
  - cbn [app Router_match]. rewrite Hmatch. reflexivity.
  - cbn [app Router_match].
    pose proof (Hbefore (p, hs) (or_introl eq_refl)) as Hnone.
    cbn [fst] in Hnone. rewrite Hnone.
    apply IH. intros route Hin. apply Hbefore. now right.
Qed.

Lemma method_not_allowed_response
    (pattern : URLPattern)
    (handlers : list (string * @HandlerFn Hub))
    (rest : Routes) (hub : Hub) (config : Configuration) (request : Request)
    (groups : list (string * string)) :
  URLPattern_exec pattern (url request) = Some groups ->
  handlers_get handlers (toLowerCase (method request)) = None ->
  status (createHandler URLPattern_exec resolveAcceptedMediaTypes
            ((pattern, handlers) :: rest) hub config request) = 405 /\
  Headers.get
    (response_headers
       (createHandler URLPattern_exec resolveAcceptedMediaTypes
          ((pattern, handlers) :: rest) hub config request)) "allow"
    = Some (join ", " (map (fun h => toUpperCase (fst h)) handlers)).
Proof.
  intros Hmatch Hverb. unfold createHandler. cbn [Router_match].
  rewrite Hmatch, Hverb. split; [reflexivity|].
  unfold throw. cbv beta iota.
  rewrite withGenericHeaders_other by (cbn; intuition discriminate).
  rewrite handleError_single_header by discriminate.
  unfold Headers.get. now rewrite lookup_insert_eq.
Qed.

(** A request on a route that has no handler for its method: the response
    is the 405 error, and its [allow] header lists the verbs registered
    for the route, in upper case and in registration order. *)
Theorem createHandler_allow_header
    (pattern : URLPattern)
    (handlers : list (string * @HandlerFn Hub))
    (rest : Routes) (hub : Hub) (config : Configuration) (request : Request)
    (groups : list (string * string))
    (Hmatch : URLPattern_exec pattern (url request) = Some groups)
    (Hverb : handlers_get handlers (toLowerCase (method request)) = None) :
  let response :=
    createHandler URLPattern_exec resolveAcceptedMediaTypes
      ((pattern, handlers) :: rest) hub config request in
  status response = 405 /\
  Headers.get (response_headers response) "allow"
    = Some (join ", " (map (fun h => toUpperCase (fst h)) handlers)).
Proof.
  cbv zeta. now apply method_not_allowed_response with (groups := groups).
Qed.

End ResponseProperties.

(** The 401 error of [authorize]: the response has the challenge. *)
Lemma error_response_carries_header_witness :
  Http.status
    (Handler.withGenericHeaders
       (Handler.handleError (fun _ => []) (Spec.hubRequest [] [])
          (JS.HttpError 401 "Unauthorized"
             [("WWW-Authenticate", Authorization.realm)] None))) = 401 /\
  Http.Headers.get
    (Http.response_headers
       (Handler.withGenericHeaders
          (Handler.handleError (fun _ => []) (Spec.hubRequest [] [])
             (JS.HttpError 401 "Unauthorized"
                [("WWW-Authenticate", Authorization.realm)] None))))
    "WWW-Authenticate" = Some Authorization.realm /\
  Http.Headers.get
    (Http.response_headers
       (Handler.withGenericHeaders
          (Handler.handleError (fun _ => []) (Spec.hubRequest [] [])
             (JS.HttpError 401 "Unauthorized"
                [("WWW-Authenticate", Authorization.realm)] None))))
    "content-type" = Some "text/plain; charset=utf-8".
Proof.
  apply (error_response_carries_header (fun _ => [])
           (Spec.hubRequest [] []) 401 "Unauthorized" "WWW-Authenticate"
           Authorization.realm None).
  cbn. intuition discriminate.
Defined.

(** A route for [/mercure] without handlers shadows a later registration
    of the same path. *)
Lemma Router_match_first_route_witness :
  Handler.Router_match Spec.execSuffix
    ([("/health", [("get", Spec.okHandler)])] ++
     ("/mercure", []) :: [("/mercure", [("get", Spec.okHandler)])])
    (Spec.hubRequest [] [])
  = Handler.Router_match Spec.execSuffix [("/mercure", [])]
      (Spec.hubRequest [] []).
Proof.
  apply (Router_match_first_route Spec.execSuffix
           [("/health", [("get", Spec.okHandler)])]
           [("/mercure", [("get", Spec.okHandler)])] "/mercure" []
           (Spec.hubRequest [] []) []).
  - intros route [<-|[]]. reflexivity.
  - reflexivity.
Defined.

(** A GET request on a route registered for POST and PUT. *)
Lemma createHandler_allow_header_witness :
  Http.status
    (Handler.createHandler Spec.execSuffix (fun _ => [])
       [("/mercure", [("post", Spec.okHandler); ("put", Spec.okHandler)])]
       tt (Spec.hubConfig false false) (Spec.hubRequest [] [])) = 405 /\
  Http.Headers.get
    (Http.response_headers
       (Handler.createHandler Spec.execSuffix (fun _ => [])
          [("/mercure", [("post", Spec.okHandler); ("put", Spec.okHandler)])]
          tt (Spec.hubConfig false false) (Spec.hubRequest [] [])))
    "allow" = Some "POST, PUT".
Proof.
  apply (createHandler_allow_header Spec.execSuffix (fun _ => [])
           "/mercure" [("post", Spec.okHandler); ("put", Spec.okHandler)]
           [] tt (Spec.hubConfig false false) (Spec.hubRequest [] []) []);
    reflexivity.
Defined.

(** ** The router: registration *)

Section RoutingProperties.
Import JS Http Config Handler Routing Spec.

Context {URLPattern Hub : Type}.
Variable URLPattern_of_pathname : string -> result URLPattern.
Variable URLPattern_exec :
  URLPattern -> string -> option (list (string * string)).
Variable resolveAcceptedMediaTypes : Request -> list string.

Lemma map_get_set {V} (m : list (string * V)) (key : string) (value : V) :
  map_get (map_set m key value) key = Some value.
Proof.
  unfold map_get. induction m as [|[k v] m IH]; cbn [map_set List.find fst].
  - now rewrite String.eqb_refl.
  - destruct (String.eqb k key) eqn:Hk; cbn [List.find fst]; rewrite Hk;
      [reflexivity|exact IH].
Qed.

Lemma map_get_set_ne {V} (m : list (string * V)) (key other : string)
    (value : V) :
  other <> key ->
  map_get (map_set m key value) other = map_get m other.
Proof.
  intros Hne. unfold map_get.
  induction m as [|[k v] m IH]; cbn [map_set List.find fst].
  - apply String.eqb_neq in Hne. rewrite String.eqb_sym in Hne.
    now rewrite Hne.
  - destruct (String.eqb k key) eqn:Hk; cbn [List.find fst].
    + apply String.eqb_eq in Hk. subst k.
      apply String.eqb_neq in Hne. rewrite String.eqb_sym in Hne.
      now rewrite Hne.
    + destruct (String.eqb k other); [reflexivity|exact IH].
Qed.

Lemma map_set_keys {V} (m : list (string * V)) (key : string) (value : V) :
  map fst (map_set m key value)
  = match map_get m key with
    | Some _ => map fst m
    | None => map fst m ++ [key]
    end.
Proof.
  unfold map_get. induction m as [|[k v] m IH]; cbn [map_set List.find fst];
    [reflexivity|].
  destruct (String.eqb k key) eqn:Hk; [reflexivity|].
  cbn [map fst]. rewrite IH.
  now destruct (List.find _ m).
Qed.

(** The handlers of a route after [verbs.forEach(...)]. *)
Lemma map_get_set_all {V} (verbs : list string) (value : V)
    (m : list (string * V)) (verb : string) :
  map_get (fold_left (fun m verb => map_set m verb value) verbs m) verb
  = if existsb (String.eqb verb) verbs then Some value else map_get m verb.
Proof.
  revert m. induction verbs as [|v verbs IH]; intros m; [reflexivity|].
  cbn [fold_left existsb]. rewrite IH.
  destruct (existsb (String.eqb verb) verbs); [now rewrite orb_true_r|].
  rewrite orb_false_r. destruct (String.eqb verb v) eqn:Hv.
  - apply String.eqb_eq in Hv. subst. apply map_get_set.
  - apply String.eqb_neq in Hv. now apply map_get_set_ne.
Qed.

(** What a registration changes: the route gets its pattern (the cached
    one, on a route that was registered before) and, for each of the
    verbs, the handler; the handlers that the route had for other verbs,
    the other routes and the other cached patterns are as before; and the
    route keeps its place among the routes when it had one, and comes
    last when it is new. *)
Theorem register_updates_one_route
    (this after : Router URLPattern Hub) (verbs : list string)
    (route : string) (handler : @HandlerFn Hub)
    (Hregistered :
       register URLPattern_of_pathname this verbs route handler = ok after) :
  exists pattern handlers,
    map_get (routes after) route = Some (pattern, handlers) /\
    patterns after !! route = Some pattern /\
    (forall cached, patterns this !! route = Some cached ->
                    pattern = cached) /\
    (forall verb,
       handlers_get handlers verb
       = if existsb (String.eqb verb) verbs then Some handler
         else match map_get (routes this) route with
              | Some (_, before) => handlers_get before verb
              | None => None
              end) /\
    (forall other, other <> route ->
       map_get (routes after) other = map_get (routes this) other /\
       patterns after !! other = patterns this !! other) /\
    map fst (routes after)
    = match map_get (routes this) route with
      | Some _ => map fst (routes this)
      | None => map fst (routes this) ++ [route]
      end.
Proof.
  unfold register, bind in Hregistered.
  destruct (match patterns this !! route with
            | Some pattern => ok pattern
            | None => URLPattern_of_pathname route
            end) as [e|pattern] eqn:Hpattern; [discriminate|].
  injection Hregistered as <-. cbn [routes patterns].
  eexists pattern, _. split; [apply map_get_set|].
  split; [apply lookup_insert_eq|]. split.
  { intros cached Hcached. rewrite Hcached in Hpattern.
    unfold ok in Hpattern. congruence. }
  split.
  { intros verb. change (handlers_get ?h verb) with (map_get h verb).
    rewrite map_get_set_all.
    destruct (existsb (String.eqb verb) verbs); [reflexivity|].
    now destruct (map_get (routes this) route) as [[p before]|]. }
  split.
  { intros other Hne. split; [now apply map_get_set_ne|].
    now apply lookup_insert_ne. }
  apply map_set_keys.
Qed.

(** [all] registers its handler under the verb [*], which is looked up
    like every other verb: on a route registered with [all] alone, a
    request whose method is not [*] gets the 405 response, with [*] as
    the allowed methods. *)
Theorem all_registers_the_star_verb
    (route : string) (handler : @HandlerFn Hub) (pattern : URLPattern)
    (hub : Hub) (config : Configuration) (request : Request)
    (groups : list (string * string))
    (Hpattern : URLPattern_of_pathname route = ok pattern)
    (Hmatch : URLPattern_exec pattern (url request) = Some groups)
    (Hmethod : toLowerCase (method request) <> "*") :
  exists router,
    all URLPattern_of_pathname new route handler = ok router /\
    status (createHandler URLPattern_exec resolveAcceptedMediaTypes
              (entries router) hub config request) = 405 /\
    Headers.get
      (response_headers
         (createHandler URLPattern_exec resolveAcceptedMediaTypes
            (entries router) hub config request)) "allow" = Some "*".
Proof.
  unfold all, register, new. cbn [patterns routes]. rewrite lookup_empty.
  rewrite Hpattern. unfold bind, ok. eexists. split; [reflexivity|].
  cbn [entries routes map_get List.find fmap option_fmap option_map
         fold_left map_set map snd].
  apply (method_not_allowed_response URLPattern_exec
           resolveAcceptedMediaTypes pattern [("*", handler)] [] hub config
           request groups Hmatch).
  unfold handlers_get. cbn [List.find fst].
  apply String.eqb_neq in Hmethod. rewrite String.eqb_sym in Hmethod.
  now rewrite Hmethod.
Qed.

End RoutingProperties.

(** The first registration on a new router: the route is there, with the
    handler for the verb [get] and none for [post]. *)
Lemma register_updates_one_route_witness :
  exists pattern handlers,
    Routing.map_get (Routing.routes Spec.mercureRouter) "/mercure"
      = Some (pattern, handlers) /\
    Handler.handlers_get handlers "get" = Some Spec.okHandler /\
    Handler.handlers_get handlers "post" = None /\
    map fst (Routing.routes Spec.mercureRouter) = ["/mercure"].
Proof.
  destruct (register_updates_one_route (fun route => JS.ok route)
              Routing.new Spec.mercureRouter ["get"] "/mercure"
              Spec.okHandler eq_refl)
    as (pattern & handlers & Hroute & _ & _ & Hverbs & _ & Horder).
  exists pattern, handlers. split; [exact Hroute|].
  split; [exact (Hverbs "get")|]. split; [exact (Hverbs "post")|].
  exact Horder.
Defined.

(** A GET request on a route registered with [all]. *)
Lemma all_registers_the_star_verb_witness :
  exists router,
    Routing.all (fun route => JS.ok route) Routing.new "/mercure"
      Spec.okHandler = JS.ok router /\
    Http.status
      (Handler.createHandler Spec.execSuffix (fun _ => [])
         (Routing.entries router) tt (Spec.hubConfig false false)
         (Spec.hubRequest [] [])) = 405 /\
    Http.Headers.get
      (Http.response_headers
         (Handler.createHandler Spec.execSuffix (fun _ => [])
            (Routing.entries router) tt (Spec.hubConfig false false)
            (Spec.hubRequest [] []))) "allow" = Some "*".
Proof.
  apply (all_registers_the_star_verb (fun route => JS.ok route)
           Spec.execSuffix (fun _ => []) "/mercure" Spec.okHandler
           "/mercure" tt (Spec.hubConfig false false)
           (Spec.hubRequest [] []) []).
  - reflexivity.
  - reflexivity.
  - discriminate.
Defined.

(** ** Forms and content types *)

Section FormProperties.
Import JS Http Handler Utils Spec.

Context {V : Type}.

Lemma valuesOf_snoc (key name : string) (value : V)
    (entries : list (string * V)) :
  valuesOf key (entries ++ [(name, value)])
  = valuesOf key entries ++ (if String.eqb name key then [value] else []).
Proof.
  unfold valuesOf. rewrite List.filter_app, map_app. cbn [List.filter fst].
  now destruct (String.eqb name key).
Qed.

Lemma extractFormData_snoc (entries : list (string * V))
    (entry : string * V) :
  extractFormData (entries ++ [entry])
  = extractStep (extractFormData entries) entry.
Proof. unfold extractFormData. now rewrite fold_left_app. Qed.

(** The record that [extractFormData] makes of a form: under each name,
    the values that the form gives for it, in order; one value stands
    alone and two or more are an array.  Under a name that every object
    inherits ([toString], [constructor], ...) the field is an array
    from the first value on, and it starts with the inherited property. *)
Theorem extractFormData_fields (entries : list (string * V))
    (key : string) :
  extractFormData entries !! key = formField key (valuesOf key entries).
Proof.
  induction entries as [|[name value] entries IH] using rev_ind;
    [reflexivity|].
  rewrite extractFormData_snoc, valuesOf_snoc. unfold extractStep.
  destruct (String.eqb name key) eqn:Hname.
  - apply String.eqb_eq in Hname. subst name. rewrite lookup_insert_eq.
    rewrite IH. unfold formField.
    destruct (valuesOf key entries) as [|first more]; cbn [app].
    + destruct (inherited key); reflexivity.
    + destruct (inherited key).
      * cbn [map]. now rewrite map_app.
      * destruct more as [|second more]; [reflexivity|].
        cbn [app map]. now rewrite map_app.
  - apply String.eqb_neq in Hname.
    rewrite lookup_insert_ne by exact Hname. now rewrite app_nil_r.
Qed.

End FormProperties.

Section ContentTypeProperties.
Import JS Http Handler Utils Spec.

Variable resolveAcceptedMediaTypes : Request -> list string.

(** A request with a content type that does not start with the accepted
    one is refused, and the response that the request handler makes of
    the refusal has the status 415 and names the accepted type in its
    [accept] header. *)
Theorem checkContentType_unsupported_media_type
    (request : Request) (acceptedType contentType : string)
    (Hheader :
       Headers.get (headers request) "content-type" = Some contentType)
    (Hpresent : truthy contentType = true)
    (Hother : startsWith acceptedType contentType = false) :
  exists error,
    checkContentType request acceptedType = throw error /\
    status (withGenericHeaders
              (handleError resolveAcceptedMediaTypes request error)) = 415 /\
    Headers.get
      (response_headers
         (withGenericHeaders
            (handleError resolveAcceptedMediaTypes request error)))
      "accept" = Some acceptedType.
Proof.
  unfold checkContentType. rewrite Hheader, Hpresent, Hother. cbn [negb].
  eexists. split; [reflexivity|]. split; [reflexivity|].
  rewrite withGenericHeaders_other by (cbn; intuition discriminate).
  rewrite handleError_single_header by discriminate.
  unfold Headers.get. now rewrite lookup_insert_eq.
Qed.

End ContentTypeProperties.

(** A JSON body sent where a form is expected. *)
Lemma checkContentType_unsupported_media_type_witness :
  exists error,
    Utils.checkContentType
      (Spec.hubRequest [("Content-Type", "application/json")] [])
      "application/x-www-form-urlencoded" = JS.throw error /\
    Http.status
      (Handler.withGenericHeaders
         (Handler.handleError (fun _ => [])
            (Spec.hubRequest [("Content-Type", "application/json")] [])
            error)) = 415 /\
    Http.Headers.get
      (Http.response_headers
         (Handler.withGenericHeaders
            (Handler.handleError (fun _ => [])
               (Spec.hubRequest [("Content-Type", "application/json")] [])
               error)))
      "accept" = Some "application/x-www-form-urlencoded".
Proof.
  apply (checkContentType_unsupported_media_type (fun _ => [])
           (Spec.hubRequest [("Content-Type", "application/json")] [])
           "application/x-www-form-urlencoded" "application/json");
    reflexivity.
Defined.
